(** * Tag-balance checkers of gran-publicador: a shallow embedding

    The repository holds three generations of one lint script that checks
    the [<template>] block of a Vue file for unbalanced tags:

    - [check_tags.py]: callbacks of a [TagChecker] driven by the standard
      library's [HTMLParser], with a recovery loop after a mismatch;
    - [check_tags_v2.py]: regular expressions, comments removed first;
    - [check_tags_v3.py]: as v2, with quoted literals collapsed before the
      comments are removed ([clean_template]).

    Python strings are sequences of code points; they are modelled as lists
    of [N].  The regular expressions of the scripts are kept as syntax trees
    and run by a backtracking matcher with Python's priorities (greedy and
    lazy repetition, optional groups, leftmost match, non-overlapping
    scans). *)

From Stdlib Require Import String Ascii DecimalString.
From Stdlib Require Import List NArith Bool Arith Lia.
Import ListNotations.
Local Open Scope list_scope.

Set Implicit Arguments.

(** ** Python strings *)

Definition char := N.
Definition str := list char.

(** A literal of the source, as a Python string. *)
Definition py (s : string) : str := map N_of_ascii (list_ascii_of_string s).

Definition dquote : char := 34%N.   (* the double quote *)
Definition squote : char := 39%N.   (* the single quote *)
Definition langle : char := 60%N.   (* < *)
Definition rangle : char := 62%N.   (* > *)
Definition slash  : char := 47%N.   (* / *)

Fixpoint str_eqb (a b : str) : bool :=
  match a, b with
  | [], [] => true
  | x :: a', y :: b' => N.eqb x y && str_eqb a' b'
  | _, _ => false
  end.

(** [s.startswith(p)], returning what follows the prefix. *)
Fixpoint strip_prefix (p s : str) : option str :=
  match p with
  | [] => Some s
  | x :: p' =>
      match s with
      | y :: s' => if N.eqb x y then strip_prefix p' s' else None
      | [] => None
      end
  end.

Definition startswith (p s : str) : bool :=
  match strip_prefix p s with Some _ => true | None => false end.

(** [str.lower] on the characters a tag name can hold: the tag pattern only
    admits ASCII letters, digits, [-] and a leading [/], and on those
    [str.lower] maps [A-Z] to [a-z] and leaves the rest. *)
Definition lower_char (c : char) : char :=
  if (65 <=? c)%N && (c <=? 90)%N then (c + 32)%N else c.

Definition lower (s : str) : str := map lower_char s.

(** [str(n)] for a line number. *)
Definition str_of_nat (n : nat) : str :=
  py (NilEmpty.string_of_uint (Nat.to_uint n)).

(** [l.pop()] of a non-empty Python list: the last element leaves. *)
Definition pop (A : Type) (l : list A) : option (list A * A) :=
  match rev l with
  | [] => None
  | x :: r => Some (rev r, x)
  end.

(** ** The fragment of [re] the scripts use *)

Module Re.

(** Repetition is only ever applied to a character class in the scripts'
    patterns, which keeps the matcher structural. *)
Inductive regex : Type :=
| Str (l : str)                    (* literal text *)
| Class (p : char -> bool)         (* one character of a class; [.] *)
| Cat (r1 r2 : regex)
| Opt (r : regex)                  (* r?   greedy *)
| Star (p : char -> bool)          (* [p]*  greedy *)
| Plus (p : char -> bool)          (* [p]+  greedy *)
| StarLazy (p : char -> bool)      (* [p]*? lazy *)
| Group (r : regex).               (* ( r ) capturing *)

Definition caps := list str.

Section Matcher.
Variable R : Type.

(** Greedy repetition: the longest run first, giving back one character
    at a time when the rest of the pattern fails. *)
Fixpoint star_greedy (p : char -> bool) (s : str) (k : str -> option R)
  : option R :=
  match s with
  | c :: s' =>
      if p c then
        match star_greedy p s' k with
        | Some x => Some x
        | None => k s
        end
      else k s
  | [] => k []
  end.

(** Lazy repetition: the rest of the pattern first, one more character
    only when it fails. *)
Fixpoint star_lazy (p : char -> bool) (s : str) (k : str -> option R)
  : option R :=
  match k s with
  | Some x => Some x
  | None =>
      match s with
      | c :: s' => if p c then star_lazy p s' k else None
      | [] => None
      end
  end.

(** [rmatch r s g k]: match [r] at the head of [s] with the groups [g]
    closed so far; [k] is the rest of the pattern.  The first success in
    priority order is the result. *)
Fixpoint rmatch (r : regex) (s : str) (g : caps)
         (k : str -> caps -> option R) : option R :=
  match r with
  | Str l =>
      match strip_prefix l s with
      | Some s' => k s' g
      | None => None
      end
  | Class p =>
      match s with
      | c :: s' => if p c then k s' g else None
      | [] => None
      end
  | Cat r1 r2 => rmatch r1 s g (fun s1 g1 => rmatch r2 s1 g1 k)
  | Opt r1 =>
      match rmatch r1 s g k with
      | Some x => Some x
      | None => k s g
      end
  | Star p => star_greedy p s (fun s' => k s' g)
  | Plus p =>
      match s with
      | c :: s' => if p c then star_greedy p s' (fun s' => k s' g) else None
      | [] => None
      end
  | StarLazy p => star_lazy p s (fun s' => k s' g)
  | Group r1 =>
      rmatch r1 s g
        (fun s' g' => k s' (g' ++ [firstn (length s - length s') s]))
  end.
End Matcher.

(** A match anchored at the head of [s]: its length and its groups. *)
Definition match_at (r : regex) (s : str) : option (nat * caps) :=
  rmatch r s [] (fun s' g => Some (length s - length s', g)).

(** [re.search(r, s)]: the leftmost position with a match; its groups. *)
Fixpoint search (r : regex) (s : str) : option caps :=
  match match_at r s with
  | Some (_, g) => Some g
  | None =>
      match s with
      | [] => None
      | _ :: s' => search r s'
      end
  end.

(** The left-to-right scan behind [re.sub] and [re.findall]: at each
    position outside the current match the pattern is tried; a match of
    [n] characters with result [x] is recorded and its characters passed
    over ([skip] counts those still to pass), a failure copies one
    character ([keep]) and moves on.  An empty match is recorded where it
    stands and the scan moves on by one character. *)
Section Scan.
Variables A B : Type.
Variable m : str -> option (nat * A).     (* the anchored matcher *)
Variable hit : A -> list B.               (* output for a match *)
Variable keep : char -> list B.           (* output for a passed character *)

Fixpoint scan (s : str) (skip : nat) : list B :=
  match s with
  | [] =>
      match skip, m [] with
      | 0, Some (_, x) => hit x
      | _, _ => []
      end
  | c :: s' =>
      match skip with
      | S n => scan s' n
      | 0 =>
          match m s with
          | Some (S n, x) => hit x ++ scan s' n
          | Some (0, x) => hit x ++ keep c ++ scan s' 0
          | None => keep c ++ scan s' 0
          end
      end
  end.
End Scan.

(** [re.sub(r, repl, s)] for a replacement without group references. *)
Definition sub (r : regex) (repl : str) (s : str) : str :=
  scan (match_at r) (fun _ => repl) (fun c => [c]) s 0.

(** [re.findall(r, s)]: the groups of every match, in source order. *)
Definition findall (r : regex) (s : str) : list caps :=
  scan (match_at r) (fun g => [g]) (fun _ => []) s 0.

(** Character classes. *)
Definition any : char -> bool := fun _ => true.            (* . with DOTALL *)
Definition only (c : char) : char -> bool := N.eqb c.
Definition except (c : char) : char -> bool := fun x => negb (N.eqb c x).

(** [\s] on a [str] pattern: the code points of [str.isspace]. *)
Definition space (c : char) : bool :=
  ((9 <=? c) && (c <=? 13) || (28 <=? c) && (c <=? 32)
   || (c =? 133) || (c =? 160) || (c =? 5760)
   || (8192 <=? c) && (c <=? 8202)
   || (c =? 8232) || (c =? 8233) || (c =? 8239) || (c =? 8287)
   || (c =? 12288))%N.

(** [[a-zA-Z0-9-]] *)
Definition name_char (c : char) : bool :=
  ((97 <=? c) && (c <=? 122) || (65 <=? c) && (c <=? 90)
   || (48 <=? c) && (c <=? 57) || (c =? 45))%N.

End Re.

Import Re.

(** ** The patterns of the scripts *)

(** The extraction pattern, compiled with [re.DOTALL]: the literal
    [<template>], one group holding a greedy run of any characters, the
    literal [</template>]. *)
Definition template_re : regex :=
  Cat (Str (py "<template>")) (Cat (Group (Star any)) (Str (py "</template>"))).

(** The pattern [<!--.*?-->], compiled with [re.DOTALL]. *)
Definition comment_re : regex :=
  Cat (Str (py "<!--")) (Cat (StarLazy any) (Str (py "-->"))).

(** The two literal patterns of [clean_template]: a quote character [q], any
    run of characters other than [q], and [q] again. *)
Definition quoted_re (q : char) : regex :=
  Cat (Class (only q)) (Cat (Star (except q)) (Class (only q))).

(** The tag pattern [<(/?[a-zA-Z0-9-]+)(?:\s+[^>]*?)?(/?)\s*>]: the opening
    angle, the first group ([tag_name_part]), and what may stand between the
    name and the closing angle ([tag_rest_part]). *)
Definition tag_name_part : regex :=
  Cat (Opt (Class (only slash))) (Plus name_char).

Definition tag_rest_part : regex :=
  Cat (Opt (Cat (Plus space) (StarLazy (except rangle))))
   (Cat (Group (Opt (Class (only slash))))
    (Cat (Star space) (Class (only rangle)))).

Definition tag_re : regex :=
  Cat (Class (only langle)) (Cat (Group tag_name_part) tag_rest_part).

(** The set literal both regex scripts and the parser script carry. *)
Definition html5_self_closing : list str :=
  map py ["area"; "base"; "br"; "col"; "embed"; "hr"; "img"; "input";
          "link"; "meta"; "param"; "source"; "track"; "wbr"]%string.

Definition mem (x : str) (l : list str) : bool := existsb (str_eqb x) l.

(** The three f-strings of the regex scripts. *)
Definition msg_unexpected (actual_name : str) : str :=
  py "Unexpected closing tag </" ++ actual_name ++ py ">".

Definition msg_mismatched (last_tag actual_name : str) : str :=
  py "Mismatched tag: expected </" ++ last_tag ++ py ">, found </"
     ++ actual_name ++ py ">".

Definition msg_unclosed (tag : str) : str :=
  py "Unclosed tag <" ++ tag ++ py ">".

(** The tuple [re.findall] yields for a pattern with two groups. *)
Definition tag_tuple (g : caps) : str * str := (nth 0 g [], nth 1 g []).

(** The body of [for tag_name, self_closing in tags:], shared verbatim by
    [check_tags_v2.py] (lines 28-50) and [check_tags_v3.py] (lines 36-50).
    The state is the pair of the script's [stack] and [errors] lists. *)
Definition loop_body (st : list str * list str) (t : str * str)
  : list str * list str :=
  let '(stack, errors) := st in
  let '(tag_name, self_closing) := t in
  if str_eqb self_closing (py "/") then st
  else if startswith (py "/") tag_name then
    let actual_name := skipn 1 tag_name in
    match pop stack with
    | None => (stack, errors ++ [msg_unexpected actual_name])
    | Some (stack', last_tag) =>
        if negb (str_eqb last_tag actual_name)
        then (stack', errors ++ [msg_mismatched last_tag actual_name])
        else (stack', errors)
    end
  else if negb (mem (lower tag_name) html5_self_closing)
       then (stack ++ [tag_name], errors)
       else st.

(** The loop over the tags followed by [for tag in stack:]. *)
Definition balance (tags : list (str * str)) : list str :=
  let '(stack, errors) := fold_left loop_body tags ([], []) in
  errors ++ map msg_unclosed stack.

Module check_tags_v3.

Definition clean_template (template : str) : str :=
  let template := sub (quoted_re dquote) [dquote; dquote] template in
  let template := sub (quoted_re squote) [squote; squote] template in
  let template := sub comment_re [] template in
  template.

(** What [check_file_tags] does with a template body. *)
Definition check_template (template : str) : list str :=
  let cleaned := clean_template template in
  let tags := map tag_tuple (findall tag_re cleaned) in
  balance tags.

(** [check_file_tags], from the text read from the file. *)
Definition check_file_tags (content : str) : list str :=
  match search template_re content with
  | None => []
  | Some g => check_template (nth 0 g [])
  end.

End check_tags_v3.

Module check_tags_v2.

Definition check_template (template : str) : list str :=
  let template := sub comment_re [] template in
  let tags := map tag_tuple (findall tag_re template) in
  balance tags.

Definition check_file_tags (content : str) : list str :=
  match search template_re content with
  | None => []
  | Some g => check_template (nth 0 g [])
  end.

End check_tags_v2.

(** ** [check_tags.py]: the parser-driven checker *)

Module check_tags.

(** [self.getpos()]: line number and column. *)
Definition pos := (nat * nat)%type.

(** The callbacks [HTMLParser.feed] issues, each with the value
    [self.getpos()] has while it runs.  [HTMLParser] belongs to Python's
    standard library; the script only supplies the handlers, and none of
    them reads the [attrs] argument, which is left out. *)
Inductive event : Type :=
| starttag (tag : str) (at_ : pos)
| startendtag (tag : str) (at_ : pos)
| endtag (tag : str) (at_ : pos).

(** The two attributes [__init__] sets. *)
Record TagChecker : Type := mk {
  tags : list (str * pos);
  errors : list str
}.

Definition init : TagChecker := mk [] [].

Definition self_closing : list str := html5_self_closing.

Definition msg_unexpected (tag : str) (at_ : pos) : str :=
  py "Unexpected closing tag </" ++ tag ++ py "> at line "
     ++ str_of_nat (fst at_).

Definition msg_mismatched (last_tag : str) (p : pos) (tag : str) (at_ : pos)
  : str :=
  py "Mismatched tag: expected </" ++ last_tag ++ py "> (from line "
     ++ str_of_nat (fst p) ++ py "), found </" ++ tag ++ py "> at line "
     ++ str_of_nat (fst at_).

Definition msg_unclosed (e : str * pos) : str :=
  py "Unclosed tag <" ++ fst e ++ py "> at line " ++ str_of_nat (fst (snd e)).

Definition handle_starttag (self : TagChecker) (tag : str) (at_ : pos)
  : TagChecker :=
  if negb (mem tag self_closing)
  then mk (tags self ++ [(tag, at_)]) (errors self)
  else self.

Definition handle_startendtag (self : TagChecker) (tag : str) (at_ : pos)
  : TagChecker := self.

(** [for i in range(len(self.tags) - 1, -1, -1)]: [n] is the number of
    indices still to visit, [i = n - 1] the current one. *)
Fixpoint recover (n : nat) (tags : list (str * pos)) (tag : str)
  : list (str * pos) :=
  match n with
  | 0 => tags
  | S i =>
      match nth_error tags i with
      | Some (t, _) =>
          if str_eqb t tag then firstn i tags else recover i tags tag
      | None => recover i tags tag
      end
  end.

Definition handle_endtag (self : TagChecker) (tag : str) (at_ : pos)
  : TagChecker :=
  match pop (tags self) with
  | None => mk (tags self) (errors self ++ [msg_unexpected tag at_])
  | Some (rest, (last_tag, p)) =>
      if negb (str_eqb last_tag tag)
      then mk (recover (length rest) rest tag)
              (errors self ++ [msg_mismatched last_tag p tag at_])
      else mk rest (errors self)
  end.

Definition dispatch (self : TagChecker) (e : event) : TagChecker :=
  match e with
  | starttag tag at_ => handle_starttag self tag at_
  | startendtag tag at_ => handle_startendtag self tag at_
  | endtag tag at_ => handle_endtag self tag at_
  end.

(** [parser.feed], seen from the handlers. *)
Definition feed (self : TagChecker) (evs : list event) : TagChecker :=
  fold_left dispatch evs self.

(** Lines 60-64 of [check_file]: the errors, then one message per entry
    of [parser.tags]. *)
Definition report (parser : TagChecker) : list str :=
  errors parser ++ map msg_unclosed (tags parser).

Section Driver.
(** What [HTMLParser.feed] does with a text: the callbacks it issues,
    or the text of the exception it raises. *)
Variable html : str -> list event + str.

Definition check_file (content : str) : list str :=
  match search template_re content with
  | None => []
  | Some g =>
      match html (nth 0 g []) with
      | inr e => [py "Parser error: " ++ e]
      | inl evs => report (feed init evs)
      end
  end.
End Driver.

End check_tags.

(** ** Occurrences of a marker in a text *)

(** [m in s] *)
Fixpoint contains (m s : str) : bool :=
  startswith m s
  || match s with
     | [] => false
     | _ :: s' => contains m s'
     end.

(** The text before and the text after the first occurrence of [m]. *)
Fixpoint find_first (m s : str) : option (str * str) :=
  match strip_prefix m s with
  | Some rest => Some ([], rest)
  | None =>
      match s with
      | [] => None
      | c :: s' =>
          match find_first m s' with
          | Some (a, b) => Some (c :: a, b)
          | None => None
          end
      end
  end.

(** The text before and the text after the last occurrence of [m]. *)
Fixpoint find_last (m s : str) : option (str * str) :=
  match s with
  | [] =>
      match strip_prefix m [] with
      | Some rest => Some ([], rest)
      | None => None
      end
  | c :: s' =>
      match find_last m s' with
      | Some (a, b) => Some (c :: a, b)
      | None =>
          match strip_prefix m s with
          | Some rest => Some ([], rest)
          | None => None
          end
      end
  end.

(** [m] occurs in [s] at offset [i]. *)
Definition occurs_at (m s : str) (i : nat) : Prop :=
  exists a b, s = a ++ m ++ b /\ length a = i.

(** ** The specification's wording, for comparison with the scripts *)

(** The markup region as the specification words it: between the first
    begin-marker and the first end-marker after it. *)
Definition region_as_specified (content : str) : option str :=
  match find_first (py "<template>") content with
  | Some (_, rest) =>
      match find_first (py "</template>") rest with
      | Some (r, _) => Some r
      | None => None
      end
  | None => None
  end.

(** The two sanitizer passes as the specification words them, written as
    direct scans without a pattern: a comment span runs from the open marker
    to the first close marker after it and is removed; a literal runs from a
    quote character to the next one and keeps its two quotes only.  Text
    with an opener and no closer stays as it is. *)
Definition comment_span (s : str) : option (nat * unit) :=
  match strip_prefix (py "<!--") s with
  | Some s1 =>
      match find_first (py "-->") s1 with
      | Some (body, _) => Some (4 + length body + 3, tt)
      | None => None
      end
  | None => None
  end.

Definition literal_span (q : char) (s : str) : option (nat * unit) :=
  match s with
  | c :: s1 =>
      if N.eqb q c then
        match find_first [q] s1 with
        | Some (body, _) => Some (1 + length body + 1, tt)
        | None => None
        end
      else None
  | [] => None
  end.

Definition strip_comments (s : str) : str :=
  scan comment_span (fun _ => []) (fun c => [c]) s 0.

Definition collapse_literals (q : char) (s : str) : str :=
  scan (literal_span q) (fun _ => [q; q]) (fun c => [c]) s 0.

Definition collapse_quotes (s : str) : str :=
  collapse_literals squote (collapse_literals dquote s).

(** The order of the passes as the specification lists them: comments
    first, then the literals. *)
Definition sanitize_as_specified (region : str) : str :=
  collapse_quotes (strip_comments region).

Definition wrap (body : str) : str :=
  py "<template>" ++ body ++ py "</template>".

(** [template_match.group(1)], when there is a match. *)
Definition extracted (content : str) : option str :=
  match search template_re content with
  | Some g => Some (nth 0 g [])
  | None => None
  end.

(** No double and no single quote in a text. *)
Definition no_quotes (s : str) : bool :=
  forallb (fun c => negb (N.eqb dquote c) && negb (N.eqb squote c)) s.

(** ** Positions outside literals and comments *)

(** [settled m opens s 0]: in the scan of [s] every span that opens is
    matched and ends within [s], so that the scan stands outside any span at
    the end of [s].  [opens] tells whether a span starts at a position,
    matched or not. *)
Section Settled.
Variable A : Type.
Variable m : str -> option (nat * A).
Variable opens : str -> bool.

Fixpoint settled (s : str) (skip : nat) : bool :=
  match s with
  | [] => Nat.eqb skip 0
  | _ :: s' =>
      match skip with
      | S n => settled s' n
      | 0 =>
          match m s with
          | Some (S n, _) => settled s' n
          | Some (0, _) => false
          | None => negb (opens s) && settled s' 0
          end
      end
  end.
End Settled.

(** Every [q]-quoted literal opened in [p] is closed in [p]. *)
Definition literals_closed (q : char) (p : str) : bool :=
  settled (literal_span q) (startswith [q]) p 0.

(** Every comment opened in [p] is closed in [p]. *)
Definition comments_closed (p : str) : bool :=
  settled comment_span (startswith (py "<!--")) p 0.

(** The last [k] characters of a text. *)
Definition lastn (k : nat) (s : str) : str := skipn (length s - k) s.

(** The point between [p] and [s] lies outside every literal and every
    comment of the region [p ++ s], as [clean_template] delimits them: the
    double-quoted literals of [p], the single-quoted literals of what the
    first pass leaves of [p], and the comments of what both passes leave of
    [p] are closed there, and no comment opener starts in [p] and ends in
    [s]. *)
Definition outside_at (p s : str) : bool :=
  literals_closed dquote p
  && literals_closed squote (collapse_literals dquote p)
  && comments_closed (collapse_quotes p)
  && negb (contains (py "<!--") (lastn 3 (collapse_quotes p) ++ firstn 3 s)).

(** The quote characters of a comment body pair up within it, and with its
    literals collapsed the body does not hold the close marker. *)
Definition paired_body (c : str) : bool :=
  literals_closed dquote c
  && literals_closed squote (collapse_literals dquote c)
  && negb (contains (py "-->") (collapse_quotes c)).

(** ** Well-nested tags *)

(** Token lists in which every open tag outside the void-element set is
    closed by a close tag of the same name, in nesting order; tags with a
    closing slash and void elements may stand anywhere. *)
Inductive well_nested : list (str * str) -> Prop :=
| wn_nil : well_nested []
| wn_slash (tag_name : str) (w : list (str * str)) :
    well_nested w -> well_nested ((tag_name, py "/") :: w)
| wn_void (n : str) (w : list (str * str)) :
    forallb name_char n = true ->
    mem (lower n) html5_self_closing = true ->
    well_nested w -> well_nested ((n, []) :: w)
| wn_pair (n : str) (inner w : list (str * str)) :
    forallb name_char n = true ->
    mem (lower n) html5_self_closing = false ->
    well_nested inner -> well_nested w ->
    well_nested ((n, []) :: inner ++ (slash :: n, []) :: w).

(** The same for the callbacks of the parser-driven checker. *)
Inductive well_nested_events : list check_tags.event -> Prop :=
| wne_nil : well_nested_events []
| wne_startend (tag : str) (at_ : check_tags.pos) (w : list check_tags.event) :
    well_nested_events w ->
    well_nested_events (check_tags.startendtag tag at_ :: w)
| wne_void (tag : str) (at_ : check_tags.pos) (w : list check_tags.event) :
    mem tag check_tags.self_closing = true ->
    well_nested_events w ->
    well_nested_events (check_tags.starttag tag at_ :: w)
| wne_pair (tag : str) (at1 at2 : check_tags.pos)
           (inner w : list check_tags.event) :
    mem tag check_tags.self_closing = false ->
    well_nested_events inner -> well_nested_events w ->
    well_nested_events
      (check_tags.starttag tag at1 :: inner ++ check_tags.endtag tag at2 :: w).

(** ** The driver at the bottom of the scripts *)

(** [s.endswith(suffix)] *)
Definition endswith (suffix s : str) : bool := startswith (rev suffix) (rev s).

(** [os.path.join(root, file)] on a POSIX system. *)
Definition path_join (root file : str) : str :=
  if startswith (py "/") file then file
  else if match root with [] => true | _ => endswith (py "/") root end
       then root ++ file
       else root ++ py "/" ++ file.

(** [d[k] = v] on a dict kept in insertion order: a new key goes to the end,
    a known key keeps its place and takes the new value. *)
Fixpoint dict_set (d : list (str * list str)) (k : str) (v : list str)
  : list (str * list str) :=
  match d with
  | [] => [(k, v)]
  | (k', v') :: d' =>
      if str_eqb k' k then (k, v) :: d' else (k', v') :: dict_set d' k v
  end.

Section Driver.
(** [open(filepath, 'r', encoding='utf-8').read()]: the text of the file, or
    nothing when opening or decoding raises. *)
Variable read : str -> option str.
(** The checking function of the script, from the text of the file on. *)
Variable check : str -> list str.
(** The line printed when nothing was found. *)
Variable all_clear : str.

(** The body of [for file in files:].  An exception leaves the script. *)
Definition visit_file (root : str) (all_errors : option (list (str * list str)))
           (file : str) : option (list (str * list str)) :=
  match all_errors with
  | None => None
  | Some d =>
      if endswith (py ".vue") file then
        let path := path_join root file in
        match read path with
        | None => None
        | Some content =>
            let errors := check content in
            match errors with
            | [] => Some d
            | _ :: _ => Some (dict_set d path errors)
            end
        end
      else Some d
  end.

(** [for root, dirs, files in os.walk(ui_app_dir):], on the pairs of [root]
    and [files] the walk yields. *)
Definition visit_all (walk : list (str * list str))
  : option (list (str * list str)) :=
  fold_left (fun acc rf => fold_left (visit_file (fst rf)) (snd rf) acc)
            walk (Some []).

(** The lines the final [if not all_errors: ... else: ...] prints. *)
Definition printed (all_errors : list (str * list str)) : list str :=
  match all_errors with
  | [] => [all_clear]
  | _ :: _ =>
      flat_map (fun pe => (py "File: " ++ fst pe)
                            :: map (fun err => py "  - " ++ err) (snd pe))
               all_errors
  end.

(** The script from the walk on: the lines printed, or nothing when an
    exception ended it before the report. *)
Definition run (walk : list (str * list str)) : option (list str) :=
  match visit_all walk with
  | Some d => Some (printed d)
  | None => None
  end.
End Driver.

Definition run_v3 (read : str -> option str) :=
  run read check_tags_v3.check_file_tags (py "No unclosed tags found.").

Definition run_v2 (read : str -> option str) :=
  run read check_tags_v2.check_file_tags (py "No unclosed tags found.").

Definition run_v1 (html : str -> list check_tags.event + str)
           (read : str -> option str) :=
  run read (check_tags.check_file html) (py "No unclosed tags found in .vue files.").

(** The paths the loop hands to the checking function, in the order of the
    walk. *)
Definition vue_paths (walk : list (str * list str)) : list str :=
  flat_map (fun rf => map (path_join (fst rf))
                          (filter (endswith (py ".vue")) (snd rf)))
           walk.

(** [d] lists exactly the paths of [visited] whose text has diagnostics, each
    once and with those diagnostics. *)
Definition listing_of (read : str -> option str) (check : str -> list str)
           (visited : list str) (d : list (str * list str)) : Prop :=
  NoDup (map fst d)
  /\ forall p errs,
       In (p, errs) d
       <-> errs <> [] /\ In p visited
           /\ option_map check (read p) = Some errs.

(** * Properties *)

Unset Implicit Arguments.

(** ** Strings and lists *)

Lemma str_eqb_spec (a b : str) : str_eqb a b = true <-> a = b.
Proof.
  revert b; induction a as [|x a IH]; intros [|y b]; simpl;
    try (split; [discriminate | discriminate]); try tauto.
  rewrite andb_true_iff, N.eqb_eq, IH.
  split; [intros [-> ->]; reflexivity | intros H; inversion H; auto].
Qed.

Lemma str_eqb_refl (a : str) : str_eqb a a = true.
Proof. apply str_eqb_spec; reflexivity. Qed.

Lemma str_eqb_neq (a b : str) : a <> b -> str_eqb a b = false.
Proof.
  intros H; destruct (str_eqb a b) eqn:E; [|reflexivity].
  apply str_eqb_spec in E; contradiction.
Qed.

Lemma strip_prefix_app (m s : str) : strip_prefix m (m ++ s) = Some s.
Proof.
  induction m as [|x m IH]; simpl; [reflexivity|].
  rewrite N.eqb_refl; exact IH.
Qed.

Lemma strip_prefix_Some (m s r : str) :
  strip_prefix m s = Some r -> s = m ++ r.
Proof.
  revert s; induction m as [|x m IH]; intros s; simpl.
  - intros H; inversion H; reflexivity.
  - destruct s as [|y s]; [discriminate|].
    destruct (N.eqb x y) eqn:E; [|discriminate].
    apply N.eqb_eq in E; subst y.
    intros H; rewrite (IH _ H); reflexivity.
Qed.

Lemma strip_prefix_app_Some (m a b r : str) :
  strip_prefix m a = Some r -> strip_prefix m (a ++ b) = Some (r ++ b).
Proof.
  revert a; induction m as [|x m IH]; intros a; simpl.
  - intros H; inversion H; reflexivity.
  - destruct a as [|y a]; [discriminate|]. simpl.
    destruct (N.eqb x y); [apply IH | discriminate].
Qed.

(** Whether a marker opens a text is decided by as many characters as the
    marker has. *)
Lemma strip_prefix_firstn (m a t r : str) (k : nat) :
  strip_prefix m (a ++ t) = Some r ->
  length m <= length a + k ->
  startswith m (a ++ firstn k t) = true.
Proof.
  unfold startswith. revert a t k; induction m as [|x m IH]; intros a t k.
  - reflexivity.
  - destruct a as [|y a]; cbn [app length].
    + destruct t as [|y t]; [discriminate|]. destruct k as [|k]; [lia|].
      cbn [firstn strip_prefix]. destruct (N.eqb x y); [|discriminate].
      intros P L. apply (IH [] t k P). simpl. lia.
    + cbn [strip_prefix]. destruct (N.eqb x y); [|discriminate].
      intros P L. apply (IH a t k P). lia.
Qed.

Lemma pop_snoc (A : Type) (l : list A) (x : A) : pop (l ++ [x]) = Some (l, x).
Proof. unfold pop; rewrite rev_app_distr; simpl; rewrite rev_involutive; reflexivity. Qed.

Lemma pop_nil (A : Type) : pop (@nil A) = None.
Proof. reflexivity. Qed.

Lemma firstn_length_diff (A : Type) (a b : list A) :
  firstn (length (a ++ b) - length b) (a ++ b) = a.
Proof.
  rewrite length_app, Nat.add_sub.
  rewrite firstn_app, Nat.sub_diag, firstn_all; simpl; apply app_nil_r.
Qed.

Lemma app_eq_by_length (A : Type) (a a' b b' : list A) :
  a ++ b = a' ++ b' -> length a = length a' -> a = a' /\ b = b'.
Proof.
  revert a'; induction a as [|x a IH]; intros [|y a'] H L; simpl in *;
    try discriminate; [split; auto|].
  inversion H; subst. destruct (IH a' H2) as [-> ->]; [lia|]. split; reflexivity.
Qed.

Lemma flat_map_singleton (s : str) : flat_map (fun c => [c]) s = s.
Proof. induction s; simpl; congruence. Qed.

(** ** Occurrences of a marker *)

Lemma find_first_Some (m s a b : str) :
  find_first m s = Some (a, b) -> s = a ++ m ++ b.
Proof.
  revert a b; induction s as [|c s IH]; intros a b; simpl.
  - destruct (strip_prefix m []) eqn:E; [|discriminate].
    intros H; inversion H; subst. apply strip_prefix_Some in E; exact E.
  - destruct (strip_prefix m (c :: s)) eqn:E.
    + intros H; inversion H; subst. apply strip_prefix_Some in E; exact E.
    + destruct (find_first m s) as [[a' b']|]; [|discriminate].
      intros H; inversion H; subst. rewrite (IH _ _ eq_refl); reflexivity.
Qed.

Lemma find_first_least (m s a b : str) :
  find_first m s = Some (a, b) ->
  forall a' b', s = a' ++ m ++ b' -> length a <= length a'.
Proof.
  revert a b; induction s as [|c s IH]; intros a b; simpl.
  - destruct (strip_prefix m []); [|discriminate].
    intros H; inversion H; subst; simpl; intros; lia.
  - destruct (strip_prefix m (c :: s)) eqn:E.
    + intros H; inversion H; subst; simpl; intros; lia.
    + destruct (find_first m s) as [[a0 b0]|] eqn:F; [|discriminate].
      intros H; inversion H; subst. intros a' b' Hs.
      destruct a' as [|x a'].
      * simpl in Hs. rewrite Hs, strip_prefix_app in E; discriminate.
      * inversion Hs; subst. simpl. apply le_n_S. eapply IH; eauto.
Qed.

Lemma find_first_None (m s : str) :
  find_first m s = None -> forall a b, s <> a ++ m ++ b.
Proof.
  induction s as [|c s IH]; simpl.
  - destruct (strip_prefix m []) eqn:E; [discriminate|].
    intros _ a b Hs. destruct a; simpl in Hs.
    + rewrite Hs, strip_prefix_app in E; discriminate.
    + discriminate.
  - destruct (strip_prefix m (c :: s)) eqn:E; [discriminate|].
    destruct (find_first m s) as [[a0 b0]|] eqn:F; [discriminate|].
    intros _ a b Hs. destruct a as [|x a]; simpl in Hs.
    + rewrite Hs, strip_prefix_app in E; discriminate.
    + inversion Hs; subst. eapply IH; eauto.
Qed.

Lemma find_first_here (m s r : str) :
  strip_prefix m s = Some r -> find_first m s = Some ([], r).
Proof. intros H. destruct s; cbn [find_first]; rewrite H; reflexivity. Qed.

Lemma find_first_later (m : str) (c : char) (s : str) :
  strip_prefix m (c :: s) = None ->
  find_first m (c :: s)
  = match find_first m s with
    | Some (a, b) => Some (c :: a, b)
    | None => None
    end.
Proof. intros H. cbn [find_first]. rewrite H. reflexivity. Qed.

Lemma find_first_single (q : char) (body rest : str) :
  forallb (except q) body = true ->
  find_first [q] (body ++ q :: rest) = Some (body, rest).
Proof.
  induction body as [|c body IH]; cbn [forallb app]; intros H.
  - apply find_first_here. cbn [strip_prefix]. rewrite N.eqb_refl. reflexivity.
  - apply andb_true_iff in H as [Hc H]. unfold except in Hc.
    rewrite find_first_later, (IH H); [reflexivity|].
    cbn [strip_prefix]. destruct (N.eqb q c); [discriminate Hc | reflexivity].
Qed.

Lemma find_last_Some (m s a b : str) :
  find_last m s = Some (a, b) -> s = a ++ m ++ b.
Proof.
  revert a b; induction s as [|c s IH]; intros a b; simpl.
  - destruct (strip_prefix m []) eqn:E; [|discriminate].
    intros H; inversion H; subst. apply strip_prefix_Some in E; exact E.
  - destruct (find_last m s) as [[a' b']|].
    + intros H; inversion H; subst. rewrite (IH _ _ eq_refl); reflexivity.
    + destruct (strip_prefix m (c :: s)) eqn:E; [|discriminate].
      intros H; inversion H; subst. apply strip_prefix_Some in E; exact E.
Qed.

Lemma find_last_None (m s : str) :
  find_last m s = None -> forall a b, s <> a ++ m ++ b.
Proof.
  induction s as [|c s IH]; simpl.
  - destruct (strip_prefix m []) eqn:E; [discriminate|].
    intros _ a b Hs. destruct a; simpl in Hs.
    + rewrite Hs, strip_prefix_app in E; discriminate.
    + discriminate.
  - destruct (find_last m s) as [[a0 b0]|] eqn:F; [discriminate|].
    destruct (strip_prefix m (c :: s)) eqn:E; [discriminate|].
    intros _ a b Hs. destruct a as [|x a]; simpl in Hs.
    + rewrite Hs, strip_prefix_app in E; discriminate.
    + inversion Hs; subst. eapply IH; eauto.
Qed.

Lemma find_last_greatest (m s a b : str) :
  find_last m s = Some (a, b) ->
  forall a' b', s = a' ++ m ++ b' -> length a' <= length a.
Proof.
  revert a b; induction s as [|c s IH]; intros a b; simpl.
  - intros _ a' b' Hs. destruct a'; [simpl; lia | discriminate].
  - destruct (find_last m s) as [[a0 b0]|] eqn:F.
    + intros H; inversion H; subst. intros a' b' Hs.
      destruct a' as [|x a']; [simpl; lia|].
      inversion Hs; subst. simpl. apply le_n_S. eapply IH; eauto.
    + destruct (strip_prefix m (c :: s)) eqn:E; [|discriminate].
      intros H; inversion H; subst. intros a' b' Hs.
      destruct a' as [|x a']; [simpl; lia|].
      inversion Hs; subst. exfalso. eapply find_last_None; eauto.
Qed.

(** An occurrence at the very end of a text is its last one. *)
Lemma find_last_at_end (m r : str) :
  m <> [] -> find_last m (r ++ m) = Some (r, []).
Proof.
  intros Hm.
  destruct (find_last m (r ++ m)) as [[a b]|] eqn:F.
  - pose proof (find_last_Some _ _ _ _ F) as Hs.
    pose proof (find_last_greatest _ _ _ _ F r []) as Hg.
    rewrite app_nil_r in Hg. specialize (Hg eq_refl).
    assert (Hl : length (r ++ m) = length (a ++ m ++ b)) by (rewrite <- Hs; reflexivity).
    rewrite !length_app in Hl.
    assert (length b = 0 /\ length a = length r) as [Hb Ha] by lia.
    destruct b; [|discriminate]. rewrite app_nil_r in Hs.
    apply app_inv_tail in Hs. subst; reflexivity.
  - exfalso. apply (find_last_None _ _ F r []). rewrite app_nil_r; reflexivity.
Qed.

Lemma contains_app_l (m a b : str) :
  contains m (a ++ b) = false -> contains m a = false.
Proof.
  induction a as [|x a IH]; cbn [app contains]; intros H.
  - destruct m; [destruct b; discriminate H | reflexivity].
  - apply orb_false_iff in H as [H1 H2]. rewrite (IH H2), orb_false_r.
    unfold startswith in *.
    destruct (strip_prefix m (x :: a)) as [r|] eqn:P; [|reflexivity].
    change (x :: a ++ b) with ((x :: a) ++ b) in H1.
    rewrite (strip_prefix_app_Some _ _ b _ P) in H1. discriminate H1.
Qed.

Lemma contains_app_r (m a b : str) :
  contains m (a ++ b) = false -> contains m b = false.
Proof.
  induction a as [|x a IH]; cbn [app]; intros H; [exact H|].
  cbn [contains] in H. apply orb_false_iff in H as [_ H]. exact (IH H).
Qed.

Lemma contains_startswith (m s : str) :
  contains m s = false -> startswith m s = false.
Proof.
  destruct s; cbn [contains]; intros H; apply orb_false_iff in H as [H _];
    exact H.
Qed.

(** No marker starts in [p] when none occurs in [p] followed by as many
    characters of what comes next as could complete one. *)
Lemma no_marker_before (m p t : str) :
  contains m (p ++ firstn (length m - 1) t) = false ->
  forall u1 c u2, p = u1 ++ c :: u2 -> strip_prefix m (c :: u2 ++ t) = None.
Proof.
  intros H u1 c u2 ->. rewrite <- app_assoc in H.
  apply contains_app_r, contains_startswith in H.
  destruct (strip_prefix m (c :: u2 ++ t)) as [r|] eqn:P; [|reflexivity].
  change (c :: u2 ++ t) with ((c :: u2) ++ t) in P.
  rewrite (strip_prefix_firstn _ _ _ _ (length m - 1) P) in H;
    [discriminate | cbn [length]; lia].
Qed.

(** ** The matcher on the shapes the patterns have *)

Section Repetition.
Variable R : Type.

(** A greedy run of any character followed by a literal stops at the last
    occurrence of the literal. *)
Lemma star_greedy_any_last (E : str) (F : str -> str -> option R) (s : str) :
  (forall a b, F a b <> None) ->
  star_greedy any s
    (fun s' => match strip_prefix E s' with
               | Some s'' => F s' s''
               | None => None
               end)
  = match find_last E s with
    | Some (_, rest) => F (E ++ rest) rest
    | None => None
    end.
Proof.
  intros HF. induction s as [|c s IH]; simpl.
  - destruct (strip_prefix E []) eqn:P; [|reflexivity].
    rewrite <- (strip_prefix_Some _ _ _ P); reflexivity.
  - rewrite IH. destruct (find_last E s) as [[a b]|].
    + destruct (F (E ++ b) b) eqn:Q; [reflexivity|].
      exfalso; exact (HF _ _ Q).
    + destruct (strip_prefix E (c :: s)) eqn:P; [|reflexivity].
      rewrite <- (strip_prefix_Some _ _ _ P); reflexivity.
Qed.

(** A lazy run of any character followed by a literal stops at the first
    occurrence of the literal. *)
Lemma star_lazy_any_first (E : str) (F : str -> str -> option R) (s : str) :
  (forall a b, F a b <> None) ->
  star_lazy any s
    (fun s' => match strip_prefix E s' with
               | Some s'' => F s' s''
               | None => None
               end)
  = match find_first E s with
    | Some (_, rest) => F (E ++ rest) rest
    | None => None
    end.
Proof.
  intros HF. induction s as [|c s IH]; simpl.
  - destruct (strip_prefix E []) as [r|] eqn:P; [|reflexivity].
    rewrite <- (strip_prefix_Some _ _ _ P).
    destruct (F [] r) eqn:Q; [reflexivity | exfalso; exact (HF _ _ Q)].
  - destruct (strip_prefix E (c :: s)) as [r|] eqn:P.
    + rewrite <- (strip_prefix_Some _ _ _ P).
      destruct (F (c :: s) r) eqn:Q; [reflexivity | exfalso; exact (HF _ _ Q)].
    + rewrite IH. destruct (find_first E s) as [[a b]|]; reflexivity.
Qed.

(** A greedy run of characters other than [q], followed by something that
    needs [q], stops at the first [q]. *)
Lemma star_greedy_except (q : char) (K : str -> option R) (s : str) :
  K [] = None ->
  (forall c u, c <> q -> K (c :: u) = None) ->
  star_greedy (except q) s K
  = match find_first [q] s with
    | Some (_, rest) => K (q :: rest)
    | None => None
    end.
Proof.
  intros K0 Kc. induction s as [|c s IH]; simpl.
  - exact K0.
  - unfold except at 1. destruct (N.eqb q c) eqn:E; simpl.
    + apply N.eqb_eq in E; subst c; reflexivity.
    + apply N.eqb_neq in E. rewrite IH.
      destruct (find_first [q] s) as [[a b]|].
      * destruct (K (q :: b)); [reflexivity|].
        apply Kc; congruence.
      * apply Kc; congruence.
Qed.

(** A greedy run takes a whole prefix of class characters when the rest of
    the pattern accepts what follows it. *)
Lemma star_greedy_run (p : char -> bool) (K : str -> option R)
      (a t : str) (x : R) :
  forallb p a = true ->
  star_greedy p t K = Some x ->
  star_greedy p (a ++ t) K = Some x.
Proof.
  intros Ha Ht. induction a as [|c a IH]; simpl in *; [exact Ht|].
  apply andb_true_iff in Ha as [-> Ha]. rewrite (IH Ha); reflexivity.
Qed.
End Repetition.

Lemma rmatch_Cat (R : Type) (r1 r2 : regex) (s : str) (g : caps)
      (k : str -> caps -> option R) :
  rmatch (Cat r1 r2) s g k = rmatch r1 s g (fun s1 g1 => rmatch r2 s1 g1 k).
Proof. reflexivity. Qed.

Lemma rmatch_Class (R : Type) (p : char -> bool) (c : char) (s : str)
      (g : caps) (k : str -> caps -> option R) :
  rmatch (Class p) (c :: s) g k = if p c then k s g else None.
Proof. reflexivity. Qed.

(** ** The scan *)

Section ScanFacts.
Variables A B : Type.
Variable m : str -> option (nat * A).
Variable hit : A -> list B.
Variable keep : char -> list B.

(** The characters of a match are passed over. *)
Lemma scan_skip (a b : str) :
  scan m hit keep (a ++ b) (length a) = scan m hit keep b 0.
Proof. induction a as [|c a IH]; simpl; [reflexivity | exact IH]. Qed.

(** Where the pattern matches nowhere in a prefix, the prefix is copied. *)
Lemma scan_no_match (a b : str) :
  (forall u1 c u2, a = u1 ++ c :: u2 -> m (c :: u2 ++ b) = None) ->
  scan m hit keep (a ++ b) 0 = flat_map keep a ++ scan m hit keep b 0.
Proof.
  induction a as [|c a IH]; intros H; simpl; [reflexivity|].
  rewrite (H [] c a eq_refl), <- app_assoc. f_equal.
  apply IH. intros u1 c' u2 ->. apply (H (c :: u1) c' u2); reflexivity.
Qed.
End ScanFacts.

(** One step of the scan at a position where the pattern matches. *)
Lemma scan_hit (A B : Type) (m : str -> option (nat * A)) (hit : A -> list B)
      (keep : char -> list B) (c : char) (a b : str) (x : A) :
  m (c :: a ++ b) = Some (S (length a), x) ->
  scan m hit keep (c :: a ++ b) 0 = hit x ++ scan m hit keep b 0.
Proof. intros H. cbn [scan]. rewrite H, scan_skip. reflexivity. Qed.

(** Two matchers that agree on the lengths of their matches drive the same
    substitution. *)
Lemma scan_sub_ext (A1 A2 : Type)
      (m1 : str -> option (nat * A1)) (m2 : str -> option (nat * A2))
      (repl : str) (s : str) (skip : nat) :
  (forall u, option_map fst (m1 u) = option_map fst (m2 u)) ->
  scan m1 (fun _ => repl) (fun c => [c]) s skip
  = scan m2 (fun _ => repl) (fun c => [c]) s skip.
Proof.
  intros H. revert skip; induction s as [|c s IH]; intros skip; simpl.
  - specialize (H []). destruct skip; [|reflexivity].
    destruct (m1 []) as [[? ?]|], (m2 []) as [[? ?]|]; try discriminate; reflexivity.
  - destruct skip; [|apply IH].
    specialize (H (c :: s)).
    destruct (m1 (c :: s)) as [[n1 ?]|], (m2 (c :: s)) as [[n2 ?]|];
      simpl in H; try discriminate.
    + inversion H; subst. destruct n2; rewrite ?IH; reflexivity.
    + rewrite IH; reflexivity.
Qed.

(** ** Extraction of the markup region *)

Lemma match_at_template (s : str) :
  match_at template_re s
  = match strip_prefix (py "<template>") s with
    | Some s1 =>
        match find_last (py "</template>") s1 with
        | Some (r, rest) => Some (length s - length rest, [r])
        | None => None
        end
    | None => None
    end.
Proof.
  unfold match_at, template_re. cbn [rmatch].
  destruct (strip_prefix (py "<template>") s) as [s1|]; [|reflexivity].
  rewrite (star_greedy_any_last _ (py "</template>")
             (fun s' s'' => Some (length s - length s'',
                                  [] ++ [firstn (length s1 - length s') s1])))
    by discriminate.
  destruct (find_last (py "</template>") s1) as [[r rest]|] eqn:F; [|reflexivity].
  apply find_last_Some in F. subst s1.
  rewrite firstn_length_diff. reflexivity.
Qed.

(** [re.search] with the extraction pattern: the first begin-marker, then
    the last end-marker of the rest of the text. *)
Lemma search_template (content : str) :
  search template_re content
  = match find_first (py "<template>") content with
    | Some (_, s1) =>
        match find_last (py "</template>") s1 with
        | Some (r, _) => Some [r]
        | None => None
        end
    | None => None
    end.
Proof.
  induction content as [|c s IH].
  - reflexivity.
  - cbn [search find_first]. rewrite match_at_template.
    destruct (strip_prefix (py "<template>") (c :: s)) as [s1|] eqn:P.
    + destruct (find_last (py "</template>") s1) as [[r rest]|] eqn:L;
        [reflexivity|].
      rewrite IH.
      destruct (find_first (py "<template>") s) as [[a s1']|] eqn:F;
        [|reflexivity].
      destruct (find_last (py "</template>") s1') as [[r' rest']|] eqn:L';
        [|reflexivity].
      exfalso.
      apply strip_prefix_Some in P. apply find_first_Some in F.
      apply find_last_Some in L'. subst s s1'.
      (* the later region is a suffix of the earlier one *)
      assert (H : exists x, s1 = x ++ r' ++ py "</template>" ++ rest').
      { change (c :: a ++ py "<template>" ++ r' ++ py "</template>" ++ rest')
          with ((c :: a) ++ py "<template>" ++ r' ++ py "</template>" ++ rest')
          in P.
        rewrite app_assoc in P.
        apply app_eq_app in P as [l [[H1 H2]|[H1 H2]]].
        - exists l. exact H2.
        - exfalso. apply (f_equal (@length _)) in H1.
          rewrite !length_app in H1; simpl in H1. lia. }
      destruct H as [x ->].
      apply (find_last_None _ _ L (x ++ r') rest'). rewrite <- app_assoc; reflexivity.
    + rewrite IH. destruct (find_first (py "<template>") s) as [[a s1']|];
        reflexivity.
Qed.

Lemma extracted_find (content : str) :
  extracted content
  = match find_first (py "<template>") content with
    | Some (_, s1) =>
        match find_last (py "</template>") s1 with
        | Some (r, _) => Some r
        | None => None
        end
    | None => None
    end.
Proof.
  unfold extracted. rewrite search_template.
  destruct (find_first (py "<template>") content) as [[a s1]|]; [|reflexivity].
  destruct (find_last (py "</template>") s1) as [[r rest]|]; reflexivity.
Qed.

Lemma extracted_wrap (body : str) : extracted (wrap body) = Some body.
Proof.
  rewrite extracted_find. unfold wrap.
  replace (find_first (py "<template>") (py "<template>" ++ body ++ py "</template>"))
    with (Some (@nil char, body ++ py "</template>")).
  - rewrite find_last_at_end by discriminate. reflexivity.
  - destruct body; reflexivity.
Qed.

Lemma extracted_spec (content r : str) :
  extracted content = Some r <->
  exists p s,
    content = p ++ py "<template>" ++ r ++ py "</template>" ++ s
    /\ (forall i, occurs_at (py "<template>") content i -> length p <= i)
    /\ (forall i, occurs_at (py "</template>") (r ++ py "</template>" ++ s) i ->
                  i <= length r).
Proof.
  rewrite extracted_find. split.
  - destruct (find_first (py "<template>") content) as [[p s1]|] eqn:F;
      [|discriminate].
    destruct (find_last (py "</template>") s1) as [[r' s]|] eqn:L;
      [|discriminate].
    intros H; inversion H; subst r'. exists p, s.
    pose proof (find_first_Some _ _ _ _ F) as Hc.
    pose proof (find_last_Some _ _ _ _ L) as Hs. subst s1.
    split; [exact Hc|]. split.
    + intros i (a & b & Ha & <-). eapply find_first_least; eauto.
    + intros i (a & b & Ha & <-). eapply find_last_greatest; eauto.
  - intros (p & s & Hc & Hfirst & Hlast).
    destruct (find_first (py "<template>") content) as [[p' s1]|] eqn:F.
    + pose proof (find_first_Some _ _ _ _ F) as Hc'.
      pose proof (find_first_least _ _ _ _ F p _ Hc) as H1.
      pose proof (Hfirst (length p') (ex_intro _ p' (ex_intro _ s1 (conj Hc' eq_refl)))) as H2.
      rewrite Hc in Hc'.
      apply app_eq_by_length in Hc' as [-> Hc']; [|lia].
      apply app_inv_head in Hc'. subst s1.
      destruct (find_last (py "</template>") (r ++ py "</template>" ++ s))
        as [[r' s']|] eqn:L.
      * pose proof (find_last_Some _ _ _ _ L) as Hs.
        pose proof (find_last_greatest _ _ _ _ L r s eq_refl) as H3.
        pose proof (Hlast (length r') (ex_intro _ r' (ex_intro _ s' (conj Hs eq_refl)))) as H4.
        apply app_eq_by_length in Hs as [-> _]; [reflexivity | lia].
      * exfalso. eapply find_last_None; eauto.
    + exfalso. eapply find_first_None; eauto.
Qed.

Lemma check_file_tags_extracted (content : str) :
  check_tags_v3.check_file_tags content
  = match extracted content with
    | Some r => check_tags_v3.check_template r
    | None => []
    end
  /\ check_tags_v2.check_file_tags content
     = match extracted content with
       | Some r => check_tags_v2.check_template r
       | None => []
       end.
Proof.
  unfold check_tags_v3.check_file_tags, check_tags_v2.check_file_tags, extracted.
  destruct (search template_re content); split; reflexivity.
Qed.

(** C3, as stated, fails: in the text below the first end-marker comes right
    after the begin-marker, so the claimed region is empty; the greedy
    pattern runs on to the last end-marker, and the text after the first
    end-marker yields two messages. *)
Lemma region_up_to_first_end_marker_refuted :
  let content := py "<template></template><div></template>" in
  extracted content <> region_as_specified content
  /\ check_tags_v3.check_file_tags content
     <> check_tags_v3.check_file_tags (py "<template></template>").
Proof. split; vm_compute; discriminate. Qed.

(** C3, amended: for every file text, the extracted region is the substring
    between the first occurrence of the begin-marker [<template>] and the
    last occurrence of the end-marker [</template>] after it (and there is a
    region exactly when such a pair exists); the messages of all three
    scripts are computed from that region alone, so only the text before the
    first begin-marker and the text after the last end-marker never
    contribute. *)
Theorem region_first_begin_last_end (content : str) :
  (forall r,
     extracted content = Some r <->
     exists p s,
       content = p ++ py "<template>" ++ r ++ py "</template>" ++ s
       /\ (forall i, occurs_at (py "<template>") content i -> length p <= i)
       /\ (forall i, occurs_at (py "</template>") (r ++ py "</template>" ++ s) i ->
                     i <= length r))
  /\ check_tags_v3.check_file_tags content
     = match extracted content with
       | Some r => check_tags_v3.check_template r
       | None => []
       end
  /\ check_tags_v2.check_file_tags content
     = match extracted content with
       | Some r => check_tags_v2.check_template r
       | None => []
       end
  /\ (forall html,
        check_tags.check_file html content
        = match extracted content with
          | Some r =>
              match html r with
              | inr e => [py "Parser error: " ++ e]
              | inl evs => check_tags.report (check_tags.feed check_tags.init evs)
              end
          | None => []
          end).
Proof.
  split; [intros r; apply extracted_spec|].
  destruct (check_file_tags_extracted content) as [H3 H2].
  split; [exact H3 | split; [exact H2|]].
  intros html. unfold check_tags.check_file, extracted.
  destruct (search template_re content); reflexivity.
Qed.

(** ** The sanitizer *)

Lemma match_at_quoted (q : char) (s : str) :
  option_map fst (match_at (quoted_re q) s) = option_map fst (literal_span q s).
Proof.
  unfold match_at, quoted_re, literal_span. cbn [rmatch].
  destruct s as [|c s1]; [reflexivity|].
  unfold only at 1. destruct (N.eqb q c); [|reflexivity].
  rewrite star_greedy_except.
  - destruct (find_first [q] s1) as [[body rest]|] eqn:F; [|reflexivity].
    unfold only. rewrite N.eqb_refl. apply find_first_Some in F. subst s1.
    cbn [option_map fst]. f_equal.
    cbn [length app]. rewrite !length_app. cbn [length]. lia.
  - reflexivity.
  - intros c' u Hc. unfold only.
    destruct (N.eqb q c') eqn:E; [|reflexivity].
    apply N.eqb_eq in E; congruence.
Qed.

Lemma match_at_comment (s : str) :
  option_map fst (match_at comment_re s) = option_map fst (comment_span s).
Proof.
  unfold match_at, comment_re, comment_span. cbn [rmatch].
  destruct (strip_prefix (py "<!--") s) as [s1|] eqn:P; [|reflexivity].
  rewrite (star_lazy_any_first _ (py "-->")
             (fun _ s'' => Some (length s - length s'', @nil str)))
    by discriminate.
  destruct (find_first (py "-->") s1) as [[body rest]|] eqn:F; [|reflexivity].
  apply find_first_Some in F. apply strip_prefix_Some in P. subst s s1.
  cbn [option_map fst]. f_equal. rewrite !length_app.
  change (length (py "<!--")) with 4. change (length (py "-->")) with 3. lia.
Qed.

Lemma sub_quoted (q : char) (s : str) :
  sub (quoted_re q) [q; q] s = collapse_literals q s.
Proof. apply scan_sub_ext, match_at_quoted. Qed.

Lemma sub_comment (s : str) : sub comment_re [] s = strip_comments s.
Proof. apply scan_sub_ext, match_at_comment. Qed.

(** [clean_template] with its three substitutions read as direct scans. *)
Lemma clean_template_scans (template : str) :
  check_tags_v3.clean_template template
  = strip_comments (collapse_quotes template).
Proof.
  unfold check_tags_v3.clean_template, collapse_quotes.
  rewrite !sub_quoted, sub_comment. reflexivity.
Qed.

Lemma collapse_literals_nil (q : char) : collapse_literals q [] = [].
Proof. reflexivity. Qed.

Lemma strip_comments_nil : strip_comments [] = [].
Proof. reflexivity. Qed.

(** A prefix without the quote character is copied as it is. *)
Lemma collapse_literals_prefix (q : char) (a b : str) :
  forallb (except q) a = true ->
  collapse_literals q (a ++ b) = a ++ collapse_literals q b.
Proof.
  intros H. unfold collapse_literals.
  rewrite scan_no_match, flat_map_singleton; [reflexivity|].
  intros u1 c u2 ->. rewrite forallb_app in H.
  apply andb_true_iff in H as [_ H]. cbn [forallb] in H.
  apply andb_true_iff in H as [H _]. unfold except in H.
  unfold literal_span. destruct (N.eqb q c); [discriminate | reflexivity].
Qed.

Lemma collapse_literals_id (q : char) (a : str) :
  forallb (except q) a = true -> collapse_literals q a = a.
Proof.
  intros H. rewrite <- (app_nil_r a) at 1.
  rewrite collapse_literals_prefix by exact H.
  rewrite collapse_literals_nil. apply app_nil_r.
Qed.

(** A literal that follows text without the quote character is collapsed
    to the two quote characters, and the scan goes on behind it. *)
Lemma collapse_literals_literal (q : char) (a body rest : str) :
  forallb (except q) a = true ->
  forallb (except q) body = true ->
  collapse_literals q (a ++ q :: body ++ q :: rest)
  = a ++ q :: q :: collapse_literals q rest.
Proof.
  intros Ha Hb. rewrite collapse_literals_prefix by exact Ha. f_equal.
  unfold collapse_literals.
  replace (q :: body ++ q :: rest) with (q :: (body ++ [q]) ++ rest)
    by (rewrite <- app_assoc; reflexivity).
  rewrite (scan_hit _ _ _ _ _ _ _ _ tt); [reflexivity|].
  rewrite <- app_assoc. unfold literal_span. cbn [app].
  rewrite N.eqb_refl, (find_first_single q body rest Hb).
  rewrite length_app. cbn [length]. do 2 f_equal; lia.
Qed.

Lemma no_quotes_except (s : str) :
  no_quotes s = true ->
  forallb (except dquote) s = true /\ forallb (except squote) s = true.
Proof.
  unfold no_quotes, except. induction s as [|c s IH]; cbn [forallb]; [auto|].
  intros H. apply andb_true_iff in H as [H1 H2].
  apply andb_true_iff in H1 as [H1 H1']. destruct (IH H2) as [IH1 IH2].
  rewrite H1, H1', IH1, IH2. auto.
Qed.

Lemma no_quotes_app (a b : str) :
  no_quotes (a ++ b) = no_quotes a && no_quotes b.
Proof. apply forallb_app. Qed.

Lemma collapse_quotes_prefix (a b : str) :
  no_quotes a = true -> collapse_quotes (a ++ b) = a ++ collapse_quotes b.
Proof.
  intros H. apply no_quotes_except in H as [H1 H2]. unfold collapse_quotes.
  rewrite collapse_literals_prefix by exact H1.
  rewrite collapse_literals_prefix by exact H2. reflexivity.
Qed.

Lemma collapse_quotes_id (a : str) : no_quotes a = true -> collapse_quotes a = a.
Proof.
  intros H. apply no_quotes_except in H as [H1 H2]. unfold collapse_quotes.
  rewrite (collapse_literals_id _ _ H1). apply collapse_literals_id; exact H2.
Qed.

(** C4, as stated, fails: with an apostrophe inside a comment the two orders
    give different texts.  The script collapses the literal that runs from
    the apostrophe of the comment to the quote that opens the attribute
    value, which swallows the comment's close marker. *)
Lemma comments_first_refuted :
  let region := py "<!-- don't --><p title='x'>" in
  check_tags_v3.clean_template region = py "<!-- don''x'>"
  /\ sanitize_as_specified region = py "<p title=''>"
  /\ check_tags_v3.clean_template region <> sanitize_as_specified region.
Proof. repeat split; vm_compute; try reflexivity; discriminate. Qed.

(** C4, amended: for every markup region the sanitizer is the composition of
    its passes in the order of the script: first the interior of every
    double-quoted literal is collapsed, then that of every single-quoted
    literal, each to an empty literal of the same quote character, and only
    then is every comment span removed. *)
Theorem sanitizer_quotes_then_comments (region : str) :
  check_tags_v3.clean_template region
  = strip_comments (collapse_literals squote (collapse_literals dquote region)).
Proof.
  unfold check_tags_v3.clean_template.
  rewrite (sub_quoted dquote region).
  rewrite (sub_quoted squote (collapse_literals dquote region)).
  apply sub_comment.
Qed.

(** ** Comments *)

Ltac eqb_cases :=
  repeat match goal with
         | |- context [N.eqb ?a ?b] =>
             destruct (N.eqb_spec a b); try discriminate; subst
         | H : context [N.eqb ?a ?b] |- _ =>
             destruct (N.eqb_spec a b); try discriminate; subst
         end.

(** The comment markers do not overlap themselves: a text without the open
    marker has none either when the first three characters of an open marker
    follow it, and likewise for the close marker. *)
Lemma no_opener_extended (p : str) :
  contains (py "<!--") p = false -> contains (py "<!--") (p ++ py "<!-") = false.
Proof.
  induction p as [|x p IH]; [reflexivity|].
  cbn [contains app]. intros H. apply orb_false_iff in H as [H1 H2].
  rewrite (IH H2), orb_false_r. clear IH H2.
  change (py "<!--") with [60; 33; 45; 45]%N in *.
  change (py "<!-") with [60; 33; 45]%N.
  destruct p as [|y [|z [|w p]]]; unfold startswith in *;
    cbn [strip_prefix app] in *; eqb_cases; try reflexivity; try discriminate.
Qed.

Lemma no_closer_extended (c : str) :
  contains (py "-->") c = false -> contains (py "-->") (c ++ py "--") = false.
Proof.
  induction c as [|x c IH]; [reflexivity|].
  cbn [contains app]. intros H. apply orb_false_iff in H as [H1 H2].
  rewrite (IH H2), orb_false_r. clear IH H2.
  change (py "-->") with [45; 45; 62]%N in *.
  change (py "--") with [45; 45]%N.
  destruct c as [|y [|z c]]; unfold startswith in *;
    cbn [strip_prefix app] in *; eqb_cases; try reflexivity; try discriminate.
Qed.

(** The first close marker after a comment body without one is the one that
    follows the body. *)
Lemma find_first_closer (c s : str) :
  contains (py "-->") c = false ->
  find_first (py "-->") (c ++ py "-->" ++ s) = Some (c, s).
Proof.
  intros H.
  assert (G : forall u1 u2, c = u1 ++ u2 ->
              find_first (py "-->") (u2 ++ py "-->" ++ s) = Some (u2, s)).
  { intros u1 u2; revert u1; induction u2 as [|x u2 IH]; intros u1 Hc.
    - cbn [app]. apply find_first_here. apply strip_prefix_app.
    - cbn [app]. rewrite find_first_later.
      + rewrite (IH (u1 ++ [x])); [reflexivity|].
        rewrite <- app_assoc; exact Hc.
      + exact (no_marker_before (py "-->") c (py "-->" ++ s)
                 (no_closer_extended c H) u1 x u2 Hc). }
  apply (G [] c eq_refl).
Qed.

Lemma comment_span_comment (c s : str) :
  contains (py "-->") c = false ->
  comment_span (py "<!--" ++ c ++ py "-->" ++ s)
  = Some (S (length (py "!--" ++ c ++ py "-->")), tt).
Proof.
  intros H. unfold comment_span.
  rewrite strip_prefix_app, (find_first_closer c s H).
  rewrite !length_app. reflexivity.
Qed.

(** A comment span that follows text without a comment opener is removed,
    and the text before it is kept. *)
Lemma strip_comments_comment (p c s : str) :
  contains (py "<!--") p = false ->
  contains (py "-->") c = false ->
  strip_comments (p ++ py "<!--" ++ c ++ py "-->" ++ s)
  = p ++ strip_comments s.
Proof.
  intros Hp Hc. unfold strip_comments.
  rewrite scan_no_match, flat_map_singleton.
  - f_equal.
    change (py "<!--" ++ c ++ py "-->" ++ s)
      with (langle :: py "!--" ++ c ++ py "-->" ++ s).
    replace (py "!--" ++ c ++ py "-->" ++ s)
      with ((py "!--" ++ c ++ py "-->") ++ s)
      by (rewrite <- !app_assoc; reflexivity).
    rewrite (scan_hit _ _ _ _ _ _ _ _ tt); [reflexivity|].
    rewrite <- (comment_span_comment c s Hc).
    rewrite <- !app_assoc. reflexivity.
  - intros u1 x u2 Hu. unfold comment_span.
    rewrite (no_marker_before (py "<!--") p (py "<!--" ++ c ++ py "-->" ++ s)
               (no_opener_extended p Hp) u1 x u2 Hu).
    reflexivity.
Qed.

(** Text in which no comment opener starts is kept. *)
Lemma strip_comments_prefix (p s : str) :
  (forall u1 c u2, p = u1 ++ c :: u2 ->
                   strip_prefix (py "<!--") (c :: u2 ++ s) = None) ->
  strip_comments (p ++ s) = p ++ strip_comments s.
Proof.
  intros H. unfold strip_comments.
  rewrite scan_no_match, flat_map_singleton; [reflexivity|].
  intros u1 c u2 Hu. unfold comment_span. rewrite (H u1 c u2 Hu). reflexivity.
Qed.

(** Without an exclamation mark there is no comment to remove. *)
Lemma strip_comments_id (s : str) :
  forallb (except 33%N) s = true -> strip_comments s = s.
Proof.
  intros H. rewrite <- (app_nil_r s) at 1. unfold strip_comments.
  rewrite scan_no_match, flat_map_singleton; [apply app_nil_r|].
  intros u1 c u2 ->. rewrite forallb_app in H.
  apply andb_true_iff in H as [_ H]. cbn [forallb] in H.
  apply andb_true_iff in H as [_ H].
  unfold comment_span.
  destruct (strip_prefix (py "<!--") (c :: u2 ++ [])) as [r|] eqn:P;
    [|reflexivity].
  exfalso. apply strip_prefix_Some in P. rewrite app_nil_r in P.
  inversion P as [[Hc Hu]]. rewrite Hu in H. discriminate H.
Qed.

(** Collapsing literals leaves the characters before the first quote. *)
Lemma collapse_literals_head (q x : char) (s t : str) :
  collapse_literals q s = x :: t -> x <> q ->
  exists s', s = x :: s' /\ collapse_literals q s' = t.
Proof.
  unfold collapse_literals. destruct s as [|c s]; [discriminate|].
  cbn [scan]. destruct (literal_span q (c :: s)) as [[[|n] u]|];
    cbn [app]; intros H Hx; inversion H; subst; try congruence.
  exists s; split; reflexivity.
Qed.

Lemma strip_prefix_collapse (q : char) (m a s r : str) :
  forallb (except q) m = true ->
  strip_prefix m (a ++ collapse_literals q s) = Some r ->
  exists r', strip_prefix m (a ++ s) = Some r'.
Proof.
  revert a s; induction m as [|x m IH]; intros a s Hm; [eexists; reflexivity|].
  cbn [forallb] in Hm. apply andb_true_iff in Hm as [Hx Hm].
  destruct a as [|y a]; cbn [app strip_prefix].
  - destruct (collapse_literals q s) as [|y t] eqn:C; [discriminate|].
    destruct (N.eqb_spec x y) as [<-|]; [|discriminate].
    intros P.
    destruct (collapse_literals_head q x s t C) as (s' & -> & C').
    { unfold except in Hx. intros ->. rewrite N.eqb_refl in Hx. discriminate. }
    rewrite N.eqb_refl. apply (IH [] s' Hm). cbn [app]. rewrite C'. exact P.
  - destruct (N.eqb x y); [|discriminate]. apply IH; exact Hm.
Qed.

Lemma strip_prefix_collapse_quotes (m a s r : str) :
  no_quotes m = true ->
  strip_prefix m (a ++ collapse_quotes s) = Some r ->
  exists r', strip_prefix m (a ++ s) = Some r'.
Proof.
  intros Hm P. apply no_quotes_except in Hm as [H1 H2].
  unfold collapse_quotes in P.
  apply (strip_prefix_collapse _ _ _ _ _ H2) in P as [r1 P].
  apply (strip_prefix_collapse _ _ _ _ _ H1) in P. exact P.
Qed.

(** ** Splitting a scan at a settled position *)

Lemma strip_prefix_long (m u t : str) :
  strip_prefix m u = None -> length m <= length u ->
  strip_prefix m (u ++ t) = None.
Proof.
  revert u; induction m as [|x m IH]; intros u; [discriminate|].
  destruct u as [|y u]; cbn [length app strip_prefix]; [lia|].
  destruct (N.eqb x y); [|reflexivity].
  intros H L. apply IH; [exact H | lia].
Qed.

Lemma find_first_app (m s t a b : str) :
  find_first m s = Some (a, b) -> find_first m (s ++ t) = Some (a, b ++ t).
Proof.
  revert a b; induction s as [|c s IH]; intros a b.
  - cbn [find_first app].
    destruct (strip_prefix m []) as [r|] eqn:P; [|discriminate].
    intros H; inversion H; subst.
    apply find_first_here. exact (strip_prefix_app_Some _ _ t _ P).
  - cbn [find_first]. destruct (strip_prefix m (c :: s)) as [r|] eqn:P.
    + intros H; inversion H; subst.
      apply find_first_here. exact (strip_prefix_app_Some _ _ t _ P).
    + destruct (find_first m s) as [[a' b']|] eqn:F; [|discriminate].
      intros H; inversion H; subst. cbn [app].
      rewrite find_first_later, (IH _ _ eq_refl); [reflexivity|].
      apply (strip_prefix_long m (c :: s) t P).
      apply find_first_Some in F. subst s.
      cbn [length]. rewrite !length_app. lia.
Qed.

Section ScanSettled.
Variables A B : Type.
Variable m : str -> option (nat * A).
Variable opens : str -> bool.
Variable hit : A -> list B.
Variable keep : char -> list B.
Hypothesis m_nil : m [] = None.
Hypothesis m_stable :
  forall u t n x, m u = Some (n, x) -> m (u ++ t) = Some (n, x).

(** Where the scan of [p] is settled and nothing that does not open in [p]
    is made to open by [t], the scan of [p ++ t] is the scan of [p] followed
    by the scan of [t]. *)
Lemma scan_settled (p t : str) (skip : nat) :
  (forall u1 c u2, p = u1 ++ c :: u2 -> opens (c :: u2) = false ->
                   m (c :: u2 ++ t) = None) ->
  settled m opens p skip = true ->
  scan m hit keep (p ++ t) skip
  = scan m hit keep p skip ++ scan m hit keep t 0.
Proof.
  revert skip; induction p as [|c p IH]; intros skip Hq Hs.
  - cbn [settled] in Hs. apply Nat.eqb_eq in Hs. subst skip.
    cbn [app scan]. rewrite m_nil. reflexivity.
  - assert (Hq' : forall u1 c' u2, p = u1 ++ c' :: u2 ->
                    opens (c' :: u2) = false -> m (c' :: u2 ++ t) = None).
    { intros u1 c' u2 ->. apply (Hq (c :: u1)). reflexivity. }
    cbn [settled] in Hs. destruct skip as [|n].
    + destruct (m (c :: p)) as [[[|n] x]|] eqn:M.
      * discriminate Hs.
      * cbn [app scan]. change (c :: p ++ t) with ((c :: p) ++ t).
        rewrite (m_stable _ t _ _ M), M, (IH n Hq' Hs), app_assoc.
        reflexivity.
      * apply andb_true_iff in Hs as [Ho Hs]. apply negb_true_iff in Ho.
        cbn [app scan]. rewrite (Hq [] c p eq_refl Ho), M, (IH 0 Hq' Hs).
        rewrite app_assoc. reflexivity.
    + cbn [app scan]. apply IH; assumption.
Qed.
End ScanSettled.

Lemma literal_span_stable (q : char) (u t : str) (n : nat) (x : unit) :
  literal_span q u = Some (n, x) -> literal_span q (u ++ t) = Some (n, x).
Proof.
  unfold literal_span. destruct u as [|c u]; [discriminate|]. cbn [app].
  destruct (N.eqb q c); [|discriminate].
  destruct (find_first [q] u) as [[body rest]|] eqn:F; [|discriminate].
  rewrite (find_first_app _ _ t _ _ F). trivial.
Qed.

Lemma comment_span_stable (u t : str) (n : nat) (x : unit) :
  comment_span u = Some (n, x) -> comment_span (u ++ t) = Some (n, x).
Proof.
  unfold comment_span.
  destruct (strip_prefix (py "<!--") u) as [s1|] eqn:P; [|discriminate].
  rewrite (strip_prefix_app_Some _ _ t _ P).
  destruct (find_first (py "-->") s1) as [[body rest]|] eqn:F; [|discriminate].
  rewrite (find_first_app _ _ t _ _ F). trivial.
Qed.

(** The literals of a text in which they are all closed are collapsed
    without regard to what follows. *)
Lemma collapse_literals_split (q : char) (p t : str) :
  literals_closed q p = true ->
  collapse_literals q (p ++ t) = collapse_literals q p ++ collapse_literals q t.
Proof.
  intros H. unfold collapse_literals.
  apply (scan_settled _ _ (literal_span q) (startswith [q])); try exact H.
  - reflexivity.
  - apply literal_span_stable.
  - intros u1 c u2 _. unfold startswith, literal_span.
    cbn [strip_prefix]. destruct (N.eqb q c); [discriminate | reflexivity].
Qed.

Lemma collapse_quotes_split (p t : str) :
  literals_closed dquote p = true ->
  literals_closed squote (collapse_literals dquote p) = true ->
  collapse_quotes (p ++ t) = collapse_quotes p ++ collapse_quotes t.
Proof.
  intros H1 H2. unfold collapse_quotes.
  rewrite (collapse_literals_split _ _ _ H1).
  apply collapse_literals_split; exact H2.
Qed.

Lemma lastn_suffix (k : nat) (u1 w : str) :
  length w <= k -> exists u1', lastn k (u1 ++ w) = u1' ++ w.
Proof.
  intros L. unfold lastn. rewrite skipn_app, length_app.
  replace (length u1 + length w - k - length u1) with 0 by lia.
  eexists; reflexivity.
Qed.

(** Without a comment opener across the end of [p], no opener appears in
    [p] through what follows. *)
Lemma no_straddling_prefix (p t : str) :
  contains (py "<!--") (lastn 3 p ++ firstn 3 t) = false ->
  forall u1 c u2, p = u1 ++ c :: u2 ->
                  startswith (py "<!--") (c :: u2) = false ->
                  strip_prefix (py "<!--") (c :: u2 ++ t) = None.
Proof.
  intros H u1 c u2 -> Ho.
  destruct (Nat.le_gt_cases 4 (length (c :: u2))) as [L|L].
  - change (c :: u2 ++ t) with ((c :: u2) ++ t).
    apply strip_prefix_long; [|exact L].
    unfold startswith in Ho.
    destruct (strip_prefix (py "<!--") (c :: u2)); [discriminate | reflexivity].
  - destruct (lastn_suffix 3 u1 (c :: u2)) as [u1' E]; [lia|].
    rewrite E in H.
    exact (no_marker_before (py "<!--") _ t H u1' c u2 eq_refl).
Qed.

(** The same in front of the cleaned text, judged on the raw text: the
    characters of an opener are no quotes, and the quote passes leave the
    characters before the first quote as they are. *)
Lemma no_straddling_prefix_cleaned (p s : str) :
  contains (py "<!--") (lastn 3 p ++ firstn 3 s) = false ->
  forall u1 c u2, p = u1 ++ c :: u2 ->
                  startswith (py "<!--") (c :: u2) = false ->
                  strip_prefix (py "<!--") (c :: u2 ++ collapse_quotes s) = None.
Proof.
  intros H u1 c u2 E Ho.
  destruct (strip_prefix (py "<!--") (c :: u2 ++ collapse_quotes s))
    as [r|] eqn:P; [|reflexivity].
  change (c :: u2 ++ collapse_quotes s) with ((c :: u2) ++ collapse_quotes s) in P.
  apply strip_prefix_collapse_quotes in P as [r' P]; [|reflexivity].
  change ((c :: u2) ++ s) with (c :: u2 ++ s) in P.
  rewrite (no_straddling_prefix p s H u1 c u2 E Ho) in P. discriminate P.
Qed.

(** The comments of a text in which they are all closed are removed without
    regard to what follows, unless what follows completes an opener. *)
Lemma strip_comments_split (p t : str) :
  comments_closed p = true ->
  (forall u1 c u2, p = u1 ++ c :: u2 ->
                   startswith (py "<!--") (c :: u2) = false ->
                   strip_prefix (py "<!--") (c :: u2 ++ t) = None) ->
  strip_comments (p ++ t) = strip_comments p ++ strip_comments t.
Proof.
  intros H Hs. unfold strip_comments.
  apply (scan_settled _ _ comment_span (startswith (py "<!--"))); try exact H.
  - reflexivity.
  - apply comment_span_stable.
  - intros u1 c u2 E Ho. unfold comment_span.
    rewrite (Hs u1 c u2 E Ho). reflexivity.
Qed.

(** No four characters of an opener fit into three. *)
Lemma lastn3_no_opener (p : str) : contains (py "<!--") (lastn 3 p) = false.
Proof.
  assert (L : length (lastn 3 p) <= 3).
  { unfold lastn. rewrite length_skipn. lia. }
  destruct (lastn 3 p) as [|a [|b [|c [|d l]]]]; cbn [length] in L; try lia;
    change (py "<!--") with [60; 33; 45; 45]%N;
    unfold contains, startswith; cbn [strip_prefix];
    repeat match goal with |- context [N.eqb ?x ?y] => destruct (N.eqb x y) end;
    reflexivity.
Qed.

(** C5, as stated, fails: the comment below holds an apostrophe, which the
    quote pass, run before the comments are removed, pairs with the quote
    that opens an attribute value further on; the close marker of the
    comment and the close tag of [div] vanish with that literal.  With the
    comment the body is reported, without it the body is clean.  A second
    input needs no quote: a comment opener without a closer stands before the
    insertion point, and the inserted comment closes it, so the open tag
    [div] is removed with the comment and no longer reported. *)
Lemma comment_changes_diagnostics :
  let before := py "<div>" in
  let comment := py "<!-- don't -->" in
  let after := py "</div><p title='x'></p>" in
  check_tags_v3.check_template (before ++ comment ++ after)
  = [py "Mismatched tag: expected </div>, found </p>"]
  /\ check_tags_v3.check_template (before ++ after) = []
  /\ check_tags_v3.check_template (before ++ comment ++ after)
     <> check_tags_v3.check_template (before ++ after)
  /\ check_tags_v3.check_template (py "<!-- <div>" ++ py "<!-- note -->")
     <> check_tags_v3.check_template (py "<!-- <div>").
Proof. repeat split; vm_compute; try reflexivity; discriminate. Qed.

(** C5, amended: comment immunity holds for a comment inserted at a point
    outside every quoted literal and every comment of the region, whose
    quote characters pair up within its body.  For every text [p] before and
    [s] after the insertion point such that, as [clean_template] pairs them,
    every double-quoted literal, every single-quoted literal and every
    comment opened in [p] is closed in [p] and no comment opener lies across
    the insertion point, and for every comment body [c] (arbitrary tag-like
    text) whose double and single quotes pair up within it and which, with
    its literals collapsed, does not hold the close marker: the region with
    the comment is cleaned to the same text, and so checked with the same
    list of messages, as the region without it. *)
Theorem comment_immunity (p c s : str) :
  outside_at p s = true ->
  paired_body c = true ->
  check_tags_v3.clean_template (p ++ py "<!--" ++ c ++ py "-->" ++ s)
  = check_tags_v3.clean_template (p ++ s)
  /\ check_tags_v3.check_template (p ++ py "<!--" ++ c ++ py "-->" ++ s)
     = check_tags_v3.check_template (p ++ s)
  /\ check_tags_v3.check_file_tags (wrap (p ++ py "<!--" ++ c ++ py "-->" ++ s))
     = check_tags_v3.check_file_tags (wrap (p ++ s)).
Proof.
  unfold outside_at, paired_body. intros Hp Hc.
  apply andb_true_iff in Hp as [Hp H4]. apply andb_true_iff in Hp as [Hp H3].
  apply andb_true_iff in Hp as [H1 H2]. apply negb_true_iff in H4.
  apply andb_true_iff in Hc as [Hc B3]. apply andb_true_iff in Hc as [B1 B2].
  apply negb_true_iff in B3.
  assert (E : check_tags_v3.clean_template (p ++ py "<!--" ++ c ++ py "-->" ++ s)
              = check_tags_v3.clean_template (p ++ s)).
  { rewrite !clean_template_scans.
    (* the quote passes *)
    rewrite (collapse_quotes_split p _ H1 H2).
    rewrite (collapse_quotes_prefix (py "<!--")) by reflexivity.
    rewrite (collapse_quotes_split c _ B1 B2).
    rewrite (collapse_quotes_prefix (py "-->")) by reflexivity.
    rewrite (collapse_quotes_split p s H1 H2).
    (* the comment pass *)
    rewrite (strip_comments_split (collapse_quotes p) (collapse_quotes s) H3)
      by (apply no_straddling_prefix_cleaned; exact H4).
    rewrite strip_comments_split; [f_equal | exact H3 |].
    - apply (strip_comments_comment [] (collapse_quotes c) (collapse_quotes s));
        [reflexivity | exact B3].
    - apply no_straddling_prefix.
      change (firstn 3 (py "<!--" ++ collapse_quotes c ++ py "-->" ++ collapse_quotes s))
        with (py "<!-").
      apply no_opener_extended, lastn3_no_opener. }
  assert (T : check_tags_v3.check_template (p ++ py "<!--" ++ c ++ py "-->" ++ s)
              = check_tags_v3.check_template (p ++ s)).
  { unfold check_tags_v3.check_template. rewrite E. reflexivity. }
  split; [exact E | split; [exact T|]].
  destruct (check_file_tags_extracted
              (wrap (p ++ py "<!--" ++ c ++ py "-->" ++ s))) as [-> _].
  destruct (check_file_tags_extracted (wrap (p ++ s))) as [-> _].
  rewrite !extracted_wrap. exact T.
Qed.

Lemma comment_immunity_witness :
  check_tags_v3.check_template
    (py "<div class='a b'><!-- one --><p>" ++ py "<!--"
        ++ py " <span> <b title='a>b'> </p> " ++ py "-->"
        ++ py "</p></div><p title='x'><br>")
  = check_tags_v3.check_template
      (py "<div class='a b'><!-- one --><p>" ++ py "</p></div><p title='x'><br>").
Proof.
  apply (comment_immunity (py "<div class='a b'><!-- one --><p>")
           (py " <span> <b title='a>b'> </p> ")
           (py "</p></div><p title='x'><br>")); vm_compute; reflexivity.
Defined.

(** ** The tag pattern *)

Lemma name_char_plain (c : char) :
  name_char c = true ->
  c <> slash /\ c <> dquote /\ c <> squote /\ c <> 33%N.
Proof.
  unfold name_char, slash, dquote, squote. intros H.
  repeat (apply orb_true_iff in H as [H|H]);
    try (apply andb_true_iff in H as [H1 H2];
         apply N.leb_le in H1; apply N.leb_le in H2);
    try apply N.eqb_eq in H; repeat split; lia.
Qed.

(** A name the tag pattern admits does not start with a slash. *)
Lemma name_not_slash (n : str) :
  forallb name_char n = true -> startswith (py "/") n = false.
Proof.
  destruct n as [|c n]; [reflexivity|]. cbn [forallb]. intros H.
  apply andb_true_iff in H as [Hc _].
  destruct (name_char_plain c Hc) as [Hc' _].
  unfold startswith. cbn [py map list_ascii_of_string strip_prefix].
  change (N_of_ascii "/") with slash.
  rewrite (proj2 (N.eqb_neq slash c)) by congruence. reflexivity.
Qed.

Lemma name_chars_plain (n : str) :
  forallb name_char n = true ->
  no_quotes n = true /\ forallb (except 33%N) n = true.
Proof.
  unfold no_quotes, except. induction n as [|c n IH]; cbn [forallb]; [auto|].
  intros H. apply andb_true_iff in H as [Hc Hn].
  destruct (IH Hn) as [IH1 IH2]. rewrite IH1, IH2.
  destruct (name_char_plain c Hc) as (_ & Hd & Hs & Hb).
  rewrite (proj2 (N.eqb_neq dquote c)), (proj2 (N.eqb_neq squote c)),
    (proj2 (N.eqb_neq 33%N c)) by congruence.
  auto.
Qed.

Section TagPattern.
Variable R : Type.

(** After the name, a closing angle ends the tag: no attribute text, an
    empty second group. *)
Lemma tag_rest_on_angle (rest : str) (g : caps) (k : str -> caps -> option R) :
  rmatch tag_rest_part (rangle :: rest) g k = k rest (g ++ [[]]).
Proof.
  unfold tag_rest_part. cbn [rmatch star_greedy].
  change (space rangle) with false. change (only slash rangle) with false.
  change (only rangle rangle) with true. cbv iota.
  rewrite Nat.sub_diag. reflexivity.
Qed.

Lemma tag_name_open (c : char) (n rest : str) (g : caps)
      (k : str -> caps -> option R) (x : R) :
  name_char c = true -> forallb name_char n = true ->
  k (rangle :: rest) (g ++ [c :: n]) = Some x ->
  rmatch (Group tag_name_part) (c :: n ++ rangle :: rest) g k = Some x.
Proof.
  intros Hc Hn Hk. unfold tag_name_part. cbn [rmatch].
  destruct (name_char_plain c Hc) as [Hs _].
  unfold only at 1. rewrite (proj2 (N.eqb_neq slash c)) by congruence.
  rewrite Hc. apply star_greedy_run; [exact Hn|].
  cbn [star_greedy]. change (name_char rangle) with false. cbv iota.
  change (c :: n ++ rangle :: rest) with ((c :: n) ++ rangle :: rest).
  rewrite firstn_length_diff. exact Hk.
Qed.

Lemma tag_name_close (c : char) (n rest : str) (g : caps)
      (k : str -> caps -> option R) (x : R) :
  name_char c = true -> forallb name_char n = true ->
  k (rangle :: rest) (g ++ [slash :: c :: n]) = Some x ->
  rmatch (Group tag_name_part) (slash :: c :: n ++ rangle :: rest) g k = Some x.
Proof.
  intros Hc Hn Hk. unfold tag_name_part. cbn [rmatch].
  change (only slash slash) with true. cbv iota. rewrite Hc.
  erewrite star_greedy_run; [reflexivity | exact Hn |].
  cbn [star_greedy]. change (name_char rangle) with false. cbv iota.
  change (slash :: c :: n ++ rangle :: rest)
    with ((slash :: c :: n) ++ rangle :: rest).
  rewrite firstn_length_diff. exact Hk.
Qed.
End TagPattern.

Lemma match_at_tag_open (c : char) (n rest : str) :
  name_char c = true -> forallb name_char n = true ->
  match_at tag_re (langle :: c :: n ++ rangle :: rest)
  = Some (S (S (S (length n))), [c :: n; []]).
Proof.
  intros Hc Hn. unfold match_at, tag_re. rewrite rmatch_Cat.
  rewrite rmatch_Class. change (only langle langle) with true. cbv iota.
  rewrite rmatch_Cat. apply tag_name_open; [exact Hc | exact Hn |].
  rewrite tag_rest_on_angle. cbn [app]. f_equal. f_equal.
  cbn [length]. rewrite length_app. cbn [length]. lia.
Qed.

Lemma match_at_tag_close (c : char) (n rest : str) :
  name_char c = true -> forallb name_char n = true ->
  match_at tag_re (langle :: slash :: c :: n ++ rangle :: rest)
  = Some (S (S (S (S (length n)))), [slash :: c :: n; []]).
Proof.
  intros Hc Hn. unfold match_at, tag_re. rewrite rmatch_Cat.
  rewrite rmatch_Class. change (only langle langle) with true. cbv iota.
  rewrite rmatch_Cat. apply tag_name_close; [exact Hc | exact Hn |].
  rewrite tag_rest_on_angle. cbn [app]. f_equal. f_equal.
  cbn [length]. rewrite length_app. cbn [length]. lia.
Qed.

(** The two tags of [<a></b>], as [re.findall] returns them. *)
Lemma findall_open_close (a b : str) :
  a <> [] -> forallb name_char a = true ->
  b <> [] -> forallb name_char b = true ->
  map tag_tuple
      (findall tag_re (langle :: a ++ rangle :: langle :: slash :: b ++ [rangle]))
  = [(a, []); (slash :: b, [])].
Proof.
  intros Ha Hca Hb Hcb.
  destruct a as [|c a]; [congruence|]. destruct b as [|d b]; [congruence|].
  cbn [forallb] in Hca, Hcb.
  apply andb_true_iff in Hca as [Hc Hca]. apply andb_true_iff in Hcb as [Hd Hcb].
  unfold findall.
  replace (langle :: (c :: a) ++ rangle :: langle :: slash :: (d :: b) ++ [rangle])
    with (langle :: ((c :: a) ++ [rangle])
                 ++ langle :: ((slash :: d :: b) ++ [rangle]) ++ [])
    by (rewrite app_nil_r, <- app_assoc; reflexivity).
  rewrite (scan_hit _ _ _ _ _ _ _ _ [c :: a; []]).
  - rewrite (scan_hit _ _ _ _ _ _ _ _ [slash :: d :: b; []]); [reflexivity|].
    rewrite <- app_assoc. cbn [app].
    rewrite match_at_tag_close by assumption.
    cbn [length]. rewrite length_app. cbn [length]. do 2 f_equal. lia.
  - rewrite <- app_assoc. cbn [app].
    rewrite match_at_tag_open by assumption.
    cbn [length]. rewrite length_app. cbn [length]. do 2 f_equal. lia.
Qed.

(** The body [<a></b>] for two tag names goes through [clean_template]
    unchanged. *)
Lemma clean_template_open_close (a b : str) :
  forallb name_char a = true -> forallb name_char b = true ->
  check_tags_v3.clean_template
    (langle :: a ++ rangle :: langle :: slash :: b ++ [rangle])
  = langle :: a ++ rangle :: langle :: slash :: b ++ [rangle].
Proof.
  intros Ha Hb.
  destruct (name_chars_plain a Ha) as [Qa Ba].
  destruct (name_chars_plain b Hb) as [Qb Bb].
  rewrite clean_template_scans.
  change (langle :: a ++ rangle :: langle :: slash :: b ++ [rangle])
    with ([langle] ++ a ++ [rangle; langle; slash] ++ b ++ [rangle]).
  rewrite collapse_quotes_id, strip_comments_id; [reflexivity | |].
  - rewrite !forallb_app, Ba, Bb. reflexivity.
  - rewrite !no_quotes_app, Qa, Qb. reflexivity.
Qed.

(** C6: the quoted attribute value of [<div title="</div>">] is collapsed
    before the tags are searched, so the body holds exactly one tag tuple,
    the open tag [div] with no closing slash, and no close tag from inside
    the value; checking it yields the single message "Unclosed tag <div>",
    and neither an unexpected-close nor a mismatch message. *)
Theorem quoted_attribute_immunity :
  let body := py "<div title=" ++ [dquote] ++ py "</div>" ++ [dquote] ++ py ">" in
  check_tags_v3.clean_template body = py "<div title=" ++ [dquote; dquote] ++ py ">"
  /\ map tag_tuple (findall tag_re (check_tags_v3.clean_template body))
     = [(py "div", [])]
  /\ check_tags_v3.check_file_tags (wrap body) = [py "Unclosed tag <div>"].
Proof.
  repeat split; vm_compute; reflexivity.
Qed.

(** ** The loop of the regex scripts *)

Lemma loop_body_open (n : str) (stack errors : list str) :
  startswith (py "/") n = false ->
  mem (lower n) html5_self_closing = false ->
  loop_body (stack, errors) (n, []) = (stack ++ [n], errors).
Proof.
  intros H1 H2. unfold loop_body.
  change (str_eqb [] (py "/")) with false. cbv iota.
  rewrite H1, H2. reflexivity.
Qed.

Lemma loop_body_void (n : str) (stack errors : list str) :
  startswith (py "/") n = false ->
  mem (lower n) html5_self_closing = true ->
  loop_body (stack, errors) (n, []) = (stack, errors).
Proof.
  intros H1 H2. unfold loop_body.
  change (str_eqb [] (py "/")) with false. cbv iota.
  rewrite H1, H2. reflexivity.
Qed.

Lemma loop_body_close (actual_name : str) (stack errors : list str) :
  loop_body (stack, errors) (slash :: actual_name, [])
  = match pop stack with
    | None => (stack, errors ++ [msg_unexpected actual_name])
    | Some (stack', last_tag) =>
        if negb (str_eqb last_tag actual_name)
        then (stack', errors ++ [msg_mismatched last_tag actual_name])
        else (stack', errors)
    end.
Proof. reflexivity. Qed.

Lemma loop_body_mismatch (stack errors : list str) (last_tag actual_name : str) :
  last_tag <> actual_name ->
  loop_body (stack ++ [last_tag], errors) (slash :: actual_name, [])
  = (stack, errors ++ [msg_mismatched last_tag actual_name]).
Proof.
  intros H. rewrite loop_body_close, pop_snoc, (str_eqb_neq _ _ H). reflexivity.
Qed.

Lemma pushed_in_order (names : list str) (stack errors : list str) :
  (forall n, In n names ->
     forallb name_char n = true /\ mem (lower n) html5_self_closing = false) ->
  fold_left loop_body (map (fun n => (n, [])) names) (stack, errors)
  = (stack ++ names, errors).
Proof.
  revert stack; induction names as [|n names IH]; intros stack H;
    cbn [map fold_left].
  - rewrite app_nil_r; reflexivity.
  - destruct (H n (or_introl eq_refl)) as [H1 H2].
    rewrite (loop_body_open _ _ _ (name_not_slash _ H1) H2).
    rewrite IH by (intros; apply H; right; assumption).
    rewrite <- app_assoc; reflexivity.
Qed.

(** C9: a close token that arrives while the stack is empty adds exactly one
    "Unexpected closing tag" message naming it and leaves the stack empty,
    and the loop goes on with the remaining tokens; the parser-driven
    checker does the same in [handle_endtag]; the template body [</div>]
    alone yields that one message and nothing else. *)
Theorem unexpected_close_on_empty_stack :
  (forall actual_name errors,
     loop_body ([], errors) (slash :: actual_name, [])
     = ([], errors ++ [msg_unexpected actual_name]))
  /\ (forall actual_name errors rest,
        fold_left loop_body ((slash :: actual_name, []) :: rest) ([], errors)
        = fold_left loop_body rest ([], errors ++ [msg_unexpected actual_name]))
  /\ (forall tag at_ errors,
        check_tags.handle_endtag (check_tags.mk [] errors) tag at_
        = check_tags.mk [] (errors ++ [check_tags.msg_unexpected tag at_]))
  /\ check_tags_v3.check_file_tags (wrap (py "</div>"))
     = [py "Unexpected closing tag </div>"]
  /\ check_tags_v2.check_file_tags (wrap (py "</div>"))
     = [py "Unexpected closing tag </div>"].
Proof.
  repeat split; try reflexivity.
Qed.

(** C2, as stated, fails: for the body [<div><span>] the claim expects the
    message for [span] before the one for [div]; the script reports [div]
    first. *)
Lemma unclosed_innermost_first_refuted :
  check_tags_v3.check_file_tags (wrap (py "<div><span>"))
  <> [py "Unclosed tag <span>"; py "Unclosed tag <div>"].
Proof. vm_compute. discriminate. Qed.

(** C2, amended: at the end of the tokens one "Unclosed tag" message is
    added per entry still on the stack, after all other messages, walking the
    stack from its bottom to its top, that is outermost (first opened) tag
    first: whatever tokens came before, a run of open tags with names
    outside the void-element set that are never closed is reported after the
    entries already on the stack and in the order the tags were opened.  The
    body [<div><span>] yields exactly the two messages for [div] and then
    [span], in both regex scripts and, with line numbers, in the
    parser-driven one. *)
Theorem unclosed_reported_outermost_first
        (tags : list (str * str)) (names : list str) :
  (forall n, In n names ->
     forallb name_char n = true /\ mem (lower n) html5_self_closing = false) ->
  balance (tags ++ map (fun n => (n, [])) names)
  = snd (fold_left loop_body tags ([], []))
    ++ map msg_unclosed (fst (fold_left loop_body tags ([], [])) ++ names)
  /\ check_tags_v3.check_file_tags (wrap (py "<div><span>"))
     = [py "Unclosed tag <div>"; py "Unclosed tag <span>"]
  /\ check_tags_v2.check_file_tags (wrap (py "<div><span>"))
     = [py "Unclosed tag <div>"; py "Unclosed tag <span>"]
  /\ check_tags.report
       (check_tags.feed check_tags.init
          [check_tags.starttag (py "div") (1, 0);
           check_tags.starttag (py "span") (1, 5)])
     = [py "Unclosed tag <div> at line 1"; py "Unclosed tag <span> at line 1"].
Proof.
  intros H. split; [|repeat split; vm_compute; reflexivity].
  unfold balance. rewrite fold_left_app.
  destruct (fold_left loop_body tags ([], [])) as [stack errors].
  rewrite pushed_in_order by exact H. reflexivity.
Qed.

Lemma unclosed_reported_outermost_first_witness :
  balance ([(py "p", []); (py "/p", [])]
             ++ map (fun n => (n, [])) [py "div"; py "span"])
  = snd (fold_left loop_body [(py "p", []); (py "/p", [])] ([], []))
    ++ map msg_unclosed
         (fst (fold_left loop_body [(py "p", []); (py "/p", [])] ([], []))
          ++ [py "div"; py "span"]).
Proof.
  apply (unclosed_reported_outermost_first
           [(py "p", []); (py "/p", [])] [py "div"; py "span"]).
  intros n [<-|[<-|[]]]; split; reflexivity.
Defined.

(** C8: for every name of the void-element set the body [<name>], with no
    slash and no closing tag, yields no message at all; the membership test
    is made on the lower-cased name, so an open tag whose name, written in
    any mix of cases, is [name] once lower-cased leaves stack and messages
    as they were: it is never pushed. *)
Theorem void_elements_never_pushed (name : str) :
  In name html5_self_closing ->
  check_tags_v3.check_file_tags (wrap (langle :: name ++ [rangle])) = []
  /\ (forall tag_name stack errors,
        forallb name_char tag_name = true ->
        lower tag_name = name ->
        loop_body (stack, errors) (tag_name, []) = (stack, errors)).
Proof.
  intros H. split.
  - unfold html5_self_closing in H. cbn [map In] in H.
    repeat (destruct H as [<-|H]; [vm_compute; reflexivity|]).
    destruct H.
  - intros tag_name stack errors Hn Hl. apply loop_body_void.
    + apply name_not_slash; exact Hn.
    + rewrite Hl. unfold html5_self_closing in H. cbn [map In] in H.
      repeat (destruct H as [<-|H]; [vm_compute; reflexivity|]).
      destruct H.
Qed.

Lemma void_elements_never_pushed_witness :
  check_tags_v3.check_file_tags (wrap (langle :: py "br" ++ [rangle])) = []
  /\ (forall tag_name stack errors,
        forallb name_char tag_name = true ->
        lower tag_name = py "br" ->
        loop_body (stack, errors) (tag_name, []) = (stack, errors)).
Proof.
  apply (void_elements_never_pushed (py "br")).
  vm_compute. right; right; left; reflexivity.
Defined.

(** C7, as stated, fails for names of the void-element set: the open tag
    [<Br>] is never pushed, since the membership test lower-cases it, so the
    close tag [</br>] meets an empty stack and is reported as unexpected,
    not as mismatched. *)
Lemma case_mismatch_for_void_name_refuted :
  check_tags_v3.check_file_tags (wrap (py "<Br></br>"))
  = [py "Unexpected closing tag </br>"]
  /\ check_tags_v3.check_file_tags (wrap (py "<Br></br>"))
     <> [msg_mismatched (py "Br") (py "br")].
Proof. split; vm_compute; [reflexivity | discriminate]. Qed.

(** C7, amended: the names of an open and a close tag are compared as
    written, never normalized: for every open tag and close tag whose names
    differ only in letter case, and whose lower-cased name is not in the
    void-element set, the close tag pops the open one and is reported with
    one "Mismatched tag" message, whatever lies below on the stack; the body
    made of the two tags yields exactly that message, as [<Div></div>]
    shows. *)
Theorem case_sensitive_matching (a b : str) :
  a <> [] -> forallb name_char a = true ->
  b <> [] -> forallb name_char b = true ->
  a <> b -> lower a = lower b ->
  mem (lower a) html5_self_closing = false ->
  check_tags_v3.check_file_tags
    (wrap (langle :: a ++ rangle :: langle :: slash :: b ++ [rangle]))
  = [msg_mismatched a b]
  /\ (forall stack errors,
        loop_body (loop_body (stack, errors) (a, [])) (slash :: b, [])
        = (stack, errors ++ [msg_mismatched a b]))
  /\ check_tags_v3.check_file_tags (wrap (py "<Div></div>"))
     = [py "Mismatched tag: expected </Div>, found </div>"].
Proof.
  intros Ha Hca Hb Hcb Hab _ Hvoid.
  pose proof (name_not_slash a Hca) as Hs.
  assert (Hstep : forall stack errors,
             loop_body (loop_body (stack, errors) (a, [])) (slash :: b, [])
             = (stack, errors ++ [msg_mismatched a b])).
  { intros stack errors. rewrite (loop_body_open _ _ _ Hs Hvoid).
    apply loop_body_mismatch; exact Hab. }
  split; [|split; [exact Hstep | vm_compute; reflexivity]].
  destruct (check_file_tags_extracted
              (wrap (langle :: a ++ rangle :: langle :: slash :: b ++ [rangle])))
    as [-> _].
  rewrite extracted_wrap. unfold check_tags_v3.check_template.
  rewrite clean_template_open_close by assumption.
  rewrite findall_open_close by assumption.
  unfold balance. cbn [fold_left]. rewrite Hstep. reflexivity.
Qed.

Lemma case_sensitive_matching_witness :
  check_tags_v3.check_file_tags
    (wrap (langle :: py "MyCard" ++ rangle :: langle :: slash :: py "mycard" ++ [rangle]))
  = [msg_mismatched (py "MyCard") (py "mycard")].
Proof.
  apply (case_sensitive_matching (py "MyCard") (py "mycard"));
    try discriminate; reflexivity.
Defined.

(** ** Mismatch and recovery *)

Section Recover.
Import check_tags.

(** The search stops at the topmost entry that carries the name and keeps
    what lies below it. *)
Lemma recover_found (below above : list (str * pos)) (tag : str) (p0 : pos) :
  (forall x, In x above -> fst x <> tag) ->
  recover (length (below ++ (tag, p0) :: above))
          (below ++ (tag, p0) :: above) tag
  = below.
Proof.
  intros H.
  assert (G : forall j, j <= length above ->
              recover (length below + 1 + j) (below ++ (tag, p0) :: above) tag
              = below).
  { induction j as [|j IH]; intros Hj.
    - rewrite Nat.add_0_r, Nat.add_1_r. cbn [recover].
      rewrite nth_error_app2, Nat.sub_diag by lia. cbn [nth_error].
      rewrite str_eqb_refl, firstn_app, Nat.sub_diag, firstn_all.
      simpl. apply app_nil_r.
    - replace (length below + 1 + S j) with (S (length below + 1 + j)) by lia.
      cbn [recover].
      rewrite nth_error_app2 by lia.
      replace (length below + 1 + j - length below) with (S j) by lia.
      cbn [nth_error].
      destruct (nth_error above j) as [[t q]|] eqn:N.
      + rewrite str_eqb_neq; [apply IH; lia|].
        apply (H (t, q)). eapply nth_error_In; eauto.
      + apply IH; lia. }
  rewrite length_app. cbn [length].
  replace (length below + S (length above))
    with (length below + 1 + length above) by lia.
  apply G; lia.
Qed.

(** Without such an entry the search leaves the list as it is. *)
Lemma recover_not_found (rest : list (str * pos)) (tag : str) (n : nat) :
  (forall x, In x rest -> fst x <> tag) ->
  recover n rest tag = rest.
Proof.
  intros H. induction n as [|i IH]; cbn [recover]; [reflexivity|].
  destruct (nth_error rest i) as [[t q]|] eqn:N; [|exact IH].
  rewrite str_eqb_neq; [exact IH|].
  apply (H (t, q)). eapply nth_error_In; eauto.
Qed.

Lemma handle_endtag_mismatch (rest : list (str * pos)) (errs : list str)
      (last_tag tag : str) (p at_ : pos) :
  last_tag <> tag ->
  handle_endtag (mk (rest ++ [(last_tag, p)]) errs) tag at_
  = mk (recover (length rest) rest tag)
       (errs ++ [check_tags.msg_mismatched last_tag p tag at_]).
Proof.
  intros H. unfold handle_endtag. cbn [tags errors].
  rewrite pop_snoc, (str_eqb_neq _ _ H). reflexivity.
Qed.
End Recover.

(** C1, as stated, fails for the regex scripts: they have no recovery
    search, so for the body [<div><span></div>] the entry [div] stays on the
    stack after the single pop and is reported as unclosed after the
    mismatch. *)
Lemma recovery_in_regex_scripts_refuted :
  check_tags_v3.check_file_tags (wrap (py "<div><span></div>"))
  = [py "Mismatched tag: expected </span>, found </div>";
     py "Unclosed tag <div>"]
  /\ check_tags_v3.check_file_tags (wrap (py "<div><span></div>"))
     <> [py "Mismatched tag: expected </span>, found </div>"].
Proof. split; vm_compute; [reflexivity | discriminate]. Qed.

(** C1, amended: when the name of a close tag differs from the popped top of
    the stack, every script adds exactly one "Mismatched tag" message.  The
    parser-driven checker ([TagChecker.handle_endtag] of [check_tags.py])
    then searches the remaining stack from its top to its bottom for an entry
    with the name of the close tag: when there is one, the stack is cut to
    just below the topmost such entry; when there is none, the stack stays as
    the single pop left it.  For the callbacks of [<div><span></div>] it
    reports exactly one mismatch and no unclosed tag.  The regex scripts
    ([check_file_tags] of [check_tags_v2.py] and [check_tags_v3.py]) make no
    search: the stack stays as the single pop left it, and for the body
    [<div><span></div>] they report the mismatch and then [div] as
    unclosed. *)
Theorem mismatch_and_recovery
        (below above : list (str * check_tags.pos)) (stack errs : list str)
        (last_tag tag : str) (p p0 at_ : check_tags.pos) :
  last_tag <> tag ->
  (forall x, In x above -> fst x <> tag) ->
  check_tags.handle_endtag
    (check_tags.mk ((below ++ (tag, p0) :: above) ++ [(last_tag, p)]) errs)
    tag at_
  = check_tags.mk below
      (errs ++ [check_tags.msg_mismatched last_tag p tag at_])
  /\ check_tags.handle_endtag
       (check_tags.mk (above ++ [(last_tag, p)]) errs) tag at_
     = check_tags.mk above
         (errs ++ [check_tags.msg_mismatched last_tag p tag at_])
  /\ check_tags.report
       (check_tags.feed check_tags.init
          [check_tags.starttag (py "div") (1, 0);
           check_tags.starttag (py "span") (1, 5);
           check_tags.endtag (py "div") (1, 11)])
     = [py "Mismatched tag: expected </span> (from line 1), found </div> at line 1"]
  /\ loop_body (stack ++ [last_tag], errs) (slash :: tag, [])
     = (stack, errs ++ [msg_mismatched last_tag tag])
  /\ check_tags_v3.check_file_tags (wrap (py "<div><span></div>"))
     = [py "Mismatched tag: expected </span>, found </div>";
        py "Unclosed tag <div>"]
  /\ check_tags_v2.check_file_tags (wrap (py "<div><span></div>"))
     = [py "Mismatched tag: expected </span>, found </div>";
        py "Unclosed tag <div>"].
Proof.
  intros Hne Habove. split; [|split; [|split; [|split; [|split]]]].
  - rewrite handle_endtag_mismatch by exact Hne.
    rewrite recover_found by exact Habove. reflexivity.
  - rewrite handle_endtag_mismatch by exact Hne.
    rewrite recover_not_found by exact Habove. reflexivity.
  - vm_compute; reflexivity.
  - apply loop_body_mismatch; exact Hne.
  - vm_compute; reflexivity.
  - vm_compute; reflexivity.
Qed.

Lemma mismatch_and_recovery_witness :
  check_tags.handle_endtag
    (check_tags.mk
       (([(py "ul", (1, 0))] ++ (py "li", (2, 2)) :: [(py "a", (3, 4))])
          ++ [(py "b", (3, 7))]) [])
    (py "li") (4, 2)
  = check_tags.mk [(py "ul", (1, 0))]
      ([] ++ [check_tags.msg_mismatched (py "b") (3, 7) (py "li") (4, 2)]).
Proof.
  apply (mismatch_and_recovery
           [(py "ul", (1, 0))] [(py "a", (3, 4))] [] []
           (py "b") (py "li") (3, 7) (2, 2) (4, 2)).
  - discriminate.
  - intros x [<-|[]]. discriminate.
Defined.

(** ** Second and third script on texts without quotes *)

Lemma extracted_no_quotes (content r : str) :
  extracted content = Some r -> no_quotes content = true -> no_quotes r = true.
Proof.
  intros H Hq. apply extracted_spec in H as (p & s & -> & _).
  rewrite !no_quotes_app in Hq.
  repeat (apply andb_true_iff in Hq as [? Hq]). assumption.
Qed.

(** C10: on a file text that holds neither a double nor a single quote the
    second and the third script return the same list of messages. *)
Theorem v2_v3_agree_without_quotes (content : str) :
  no_quotes content = true ->
  check_tags_v2.check_file_tags content = check_tags_v3.check_file_tags content.
Proof.
  intros Hq.
  destruct (check_file_tags_extracted content) as [H3 H2].
  rewrite H3, H2.
  destruct (extracted content) as [r|] eqn:E; [|reflexivity].
  unfold check_tags_v3.check_template, check_tags_v2.check_template.
  rewrite clean_template_scans, sub_comment.
  rewrite collapse_quotes_id by (eapply extracted_no_quotes; eauto).
  reflexivity.
Qed.

Lemma v2_v3_agree_without_quotes_witness :
  check_tags_v2.check_file_tags (wrap (py "<div class=a><!-- <p> --><span></div>"))
  = check_tags_v3.check_file_tags (wrap (py "<div class=a><!-- <p> --><span></div>")).
Proof.
  apply (v2_v3_agree_without_quotes
           (wrap (py "<div class=a><!-- <p> --><span></div>"))).
  vm_compute. reflexivity.
Defined.

(** * Further properties of the scripts *)

(** ** Text around the template block *)

Lemma contains_false_cons (m : str) (c : char) (s : str) :
  contains m (c :: s) = false ->
  startswith m (c :: s) = false /\ contains m s = false.
Proof. cbn [contains]. intros H. apply orb_false_iff in H. exact H. Qed.

Lemma strip_prefix_short (m u t r : str) :
  strip_prefix m (u ++ t) = Some r -> length m <= length u ->
  exists r', strip_prefix m u = Some r'.
Proof.
  revert u; induction m as [|x m IH]; intros u; [eexists; reflexivity|].
  destruct u as [|y u]; cbn [length app strip_prefix]; [lia|].
  destruct (N.eqb x y); [|discriminate].
  intros H L. apply (IH u H). lia.
Qed.

(** A marker whose first character does not come back in it cannot start
    before a copy of itself and run into it. *)
Lemma fresh_head_no_overlap (x : char) (m u t r : str) :
  forallb (except x) m = true ->
  strip_prefix m (u ++ x :: t) = Some r -> length m <= length u.
Proof.
  revert u; induction m as [|y m IH]; intros u Hm; [cbn [length]; lia|].
  cbn [forallb] in Hm. apply andb_true_iff in Hm as [Hy Hm].
  destruct u as [|z u]; cbn [app strip_prefix length].
  - unfold except in Hy. rewrite N.eqb_sym in Hy.
    destruct (N.eqb y x); [discriminate Hy | discriminate].
  - destruct (N.eqb y z); [|discriminate].
    intros H. apply le_n_S. exact (IH u Hm H).
Qed.

Lemma no_marker_before_copy (x : char) (m p t : str) :
  forallb (except x) m = true ->
  contains (x :: m) p = false ->
  forall u1 c u2, p = u1 ++ c :: u2 ->
                  strip_prefix (x :: m) (c :: u2 ++ x :: m ++ t) = None.
Proof.
  intros Hm Hp u1 c u2 ->. apply contains_app_r in Hp.
  apply contains_startswith in Hp. unfold startswith in Hp.
  destruct (strip_prefix (x :: m) (c :: u2 ++ x :: m ++ t)) as [r|] eqn:P;
    [|reflexivity].
  exfalso. cbn [strip_prefix] in P, Hp.
  destruct (N.eqb x c); [|discriminate].
  pose proof (fresh_head_no_overlap x m u2 (m ++ t) r Hm P) as L.
  destruct (strip_prefix_short m u2 _ r P L) as [r' P'].
  rewrite P' in Hp. discriminate.
Qed.

Lemma find_first_after (m p t : str) :
  (forall u1 c u2, p = u1 ++ c :: u2 -> strip_prefix m (c :: u2 ++ m ++ t) = None) ->
  find_first m (p ++ m ++ t) = Some (p, t).
Proof.
  induction p as [|c p IH]; intros H.
  - cbn [app]. apply find_first_here, strip_prefix_app.
  - cbn [app]. rewrite find_first_later by (apply (H [] c p); reflexivity).
    rewrite IH; [reflexivity|].
    intros u1 c' u2 ->. apply (H (c :: u1)). reflexivity.
Qed.

Lemma find_last_prepend (m a s u v : str) :
  find_last m s = Some (u, v) -> find_last m (a ++ s) = Some (a ++ u, v).
Proof.
  intros H. induction a as [|c a IH]; [exact H|].
  cbn [app find_last]. rewrite IH. reflexivity.
Qed.

Lemma find_last_none_contains (m s : str) :
  contains m s = false -> find_last m s = None.
Proof.
  induction s as [|c s IH]; intros H.
  - cbn [contains] in H. apply orb_false_iff in H as [H _].
    unfold startswith in H. cbn [find_last].
    destruct (strip_prefix m []); [discriminate | reflexivity].
  - apply contains_false_cons in H as [H1 H2]. cbn [find_last].
    rewrite (IH H2). unfold startswith in H1.
    destruct (strip_prefix m (c :: s)); [discriminate | reflexivity].
Qed.

Lemma contains_fresh_prefix (x : char) (m w t : str) :
  forallb (except x) w = true ->
  contains (x :: m) t = false -> contains (x :: m) (w ++ t) = false.
Proof.
  intros Hw Ht. induction w as [|c w IH]; [exact Ht|].
  cbn [forallb] in Hw. apply andb_true_iff in Hw as [Hc Hw].
  cbn [app contains]. rewrite (IH Hw), orb_false_r.
  unfold startswith. cbn [strip_prefix]. unfold except in Hc.
  destruct (N.eqb x c); [discriminate Hc | reflexivity].
Qed.

Lemma find_last_before (x : char) (m b t : str) :
  forallb (except x) m = true ->
  contains (x :: m) t = false ->
  find_last (x :: m) (b ++ (x :: m) ++ t) = Some (b, t).
Proof.
  intros Hm Ht.
  rewrite (find_last_prepend (x :: m) b _ [] t); [rewrite app_nil_r; reflexivity|].
  cbn [app find_last].
  rewrite (find_last_none_contains _ _ (contains_fresh_prefix x m m t Hm Ht)).
  change (x :: m ++ t) with ((x :: m) ++ t). rewrite strip_prefix_app.
  reflexivity.
Qed.

Lemma check_file_extracted (html : str -> list check_tags.event + str)
      (content : str) :
  check_tags.check_file html content
  = match extracted content with
    | Some r =>
        match html r with
        | inr e => [py "Parser error: " ++ e]
        | inl evs => check_tags.report (check_tags.feed check_tags.init evs)
        end
    | None => []
    end.
Proof.
  unfold check_tags.check_file, extracted.
  destruct (search template_re content); reflexivity.
Qed.

Lemma extracted_between (pre body post : str) :
  contains (py "<template>") pre = false ->
  contains (py "</template>") post = false ->
  extracted (pre ++ wrap body ++ post) = Some body.
Proof.
  intros Hpre Hpost. rewrite extracted_find. unfold wrap.
  rewrite <- !app_assoc.
  rewrite find_first_after.
  - change (py "</template>") with (langle :: py "/template>").
    rewrite (find_last_before langle (py "/template>") body post);
      [reflexivity | reflexivity | exact Hpost].
  - change (py "<template>") with (langle :: py "template>") in *.
    apply no_marker_before_copy; [reflexivity | exact Hpre].
Qed.

(** X1: text of the file before the template block that holds no
    begin-marker, and text after it that holds no end-marker, is ignored,
    whatever the block itself holds (further markers included): the file is
    checked as its block alone, in all three scripts. *)
Theorem surroundings_ignored (pre body post : str) :
  contains (py "<template>") pre = false ->
  contains (py "</template>") post = false ->
  check_tags_v3.check_file_tags (pre ++ wrap body ++ post)
  = check_tags_v3.check_template body
  /\ check_tags_v2.check_file_tags (pre ++ wrap body ++ post)
     = check_tags_v2.check_template body
  /\ (forall html,
        check_tags.check_file html (pre ++ wrap body ++ post)
        = check_tags.check_file html (wrap body)).
Proof.
  intros Hpre Hpost.
  destruct (check_file_tags_extracted (pre ++ wrap body ++ post)) as [-> ->].
  rewrite (extracted_between pre body post Hpre Hpost).
  split; [reflexivity | split; [reflexivity|]].
  intros html. rewrite !check_file_extracted.
  rewrite (extracted_between pre body post Hpre Hpost), extracted_wrap.
  reflexivity.
Qed.

Lemma surroundings_ignored_witness :
  check_tags_v3.check_file_tags
    (py "<script>let a = '<div>'</script>"
        ++ wrap (py "<div><template v-if='x'></template>")
        ++ py "<style>p > a {}</style>")
  = check_tags_v3.check_template (py "<div><template v-if='x'></template>").
Proof.
  apply (surroundings_ignored (py "<script>let a = '<div>'</script>")
           (py "<div><template v-if='x'></template>")
           (py "<style>p > a {}</style>")); reflexivity.
Defined.

Lemma contains_find_first (m s : str) :
  contains m s = false -> find_first m s = None.
Proof.
  induction s as [|c s IH]; intros H.
  - cbn [contains] in H. apply orb_false_iff in H as [H _].
    unfold startswith in H. cbn [find_first].
    destruct (strip_prefix m []); [discriminate | reflexivity].
  - apply contains_false_cons in H as [H1 H2]. cbn [find_first].
    rewrite (IH H2). unfold startswith in H1.
    destruct (strip_prefix m (c :: s)); [discriminate | reflexivity].
Qed.

Lemma extracted_none (content : str) :
  contains (py "<template>") content && contains (py "</template>") content
  = false ->
  extracted content = None.
Proof.
  intros H. rewrite extracted_find.
  destruct (find_first (py "<template>") content) as [[a s1]|] eqn:F;
    [|reflexivity].
  destruct (find_last (py "</template>") s1) as [[r rest]|] eqn:L;
    [|reflexivity].
  exfalso. apply andb_false_iff in H as [H|H].
  - rewrite (contains_find_first _ _ H) in F. discriminate.
  - apply find_first_Some in F. subst content.
    apply contains_app_r in H.
    apply contains_app_r in H.
    rewrite (find_last_none_contains _ _ H) in L. discriminate.
Qed.

(** X2: a file without the begin-marker, or without the end-marker, yields
    no message at all in any of the three scripts; the parser is not even
    called. *)
Theorem missing_marker_no_diagnostics (content : str) :
  contains (py "<template>") content && contains (py "</template>") content
  = false ->
  check_tags_v3.check_file_tags content = []
  /\ check_tags_v2.check_file_tags content = []
  /\ (forall html, check_tags.check_file html content = []).
Proof.
  intros H. pose proof (extracted_none content H) as E.
  destruct (check_file_tags_extracted content) as [-> ->]. rewrite E.
  split; [reflexivity | split; [reflexivity|]].
  intros html. rewrite check_file_extracted, E. reflexivity.
Qed.

Lemma missing_marker_no_diagnostics_witness :
  check_tags_v3.check_file_tags (py "<template><div><span>") = [].
Proof.
  apply (missing_marker_no_diagnostics (py "<template><div><span>")).
  reflexivity.
Defined.

(** ** What the tag pattern yields *)

Section ScanMore.
Variables A B : Type.
Variable m : str -> option (nat * A).
Variable hit : A -> list B.
Variable keep : char -> list B.

(** Whatever the scan puts out comes from a match or from a passed
    character. *)
Lemma scan_In (y : B) (s : str) (skip : nat) :
  In y (scan m hit keep s skip) ->
  (exists u n x, m u = Some (n, x) /\ In y (hit x))
  \/ (exists c, In c s /\ In y (keep c)).
Proof.
  revert skip; induction s as [|c s IH]; intros skip; cbn [scan].
  - destruct skip; [|intros []].
    destruct (m []) as [[n x]|] eqn:M; [|intros []].
    intros H. left. exists [], n, x. auto.
  - destruct skip as [|k].
    + destruct (m (c :: s)) as [[[|n] x]|] eqn:M.
      * intros H. apply in_app_or in H as [H|H];
          [left; exists (c :: s), 0, x; auto|].
        apply in_app_or in H as [H|H];
          [right; exists c; split; [left; reflexivity | exact H]|].
        destruct (IH _ H) as [L|(c' & Hc & Hy)]; [left; exact L|].
        right; exists c'; split; [right; exact Hc | exact Hy].
      * intros H. apply in_app_or in H as [H|H];
          [left; exists (c :: s), (S n), x; auto|].
        destruct (IH _ H) as [L|(c' & Hc & Hy)]; [left; exact L|].
        right; exists c'; split; [right; exact Hc | exact Hy].
      * intros H. apply in_app_or in H as [H|H];
          [right; exists c; split; [left; reflexivity | exact H]|].
        destruct (IH _ H) as [L|(c' & Hc & Hy)]; [left; exact L|].
        right; exists c'; split; [right; exact Hc | exact Hy].
    + intros H. destruct (IH _ H) as [L|(c' & Hc & Hy)]; [left; exact L|].
      right; exists c'; split; [right; exact Hc | exact Hy].
Qed.
End ScanMore.

Section Soundness.
Variable R : Type.

Lemma star_greedy_sound (p : char -> bool) (s : str) (k : str -> option R)
      (x : R) :
  star_greedy p s k = Some x ->
  exists w s', s = w ++ s' /\ forallb p w = true /\ k s' = Some x.
Proof.
  induction s as [|c s IH]; cbn [star_greedy]; intros H.
  - exists [], []. auto.
  - destruct (p c) eqn:Pc; [|exists [], (c :: s); auto].
    destruct (star_greedy p s k) as [y|] eqn:G.
    + inversion H; subst y. destruct (IH eq_refl) as (w & s' & -> & Hw & Hk).
      exists (c :: w), s'. cbn [forallb app]. rewrite Pc, Hw. auto.
    + exists [], (c :: s). auto.
Qed.

Lemma star_lazy_sound (p : char -> bool) (s : str) (k : str -> option R)
      (x : R) :
  star_lazy p s k = Some x ->
  exists w s', s = w ++ s' /\ forallb p w = true /\ k s' = Some x.
Proof.
  induction s as [|c s IH]; cbn [star_lazy]; intros H.
  - exists [], []. destruct (k []); [auto | discriminate].
  - destruct (k (c :: s)) as [y|] eqn:K.
    + exists [], (c :: s). inversion H; subst y. auto.
    + destruct (p c) eqn:Pc; [|discriminate].
      destruct (IH H) as (w & s' & -> & Hw & Hk).
      exists (c :: w), s'. cbn [forallb app]. rewrite Pc, Hw. auto.
Qed.

(** The first group of the tag pattern: an optional slash and a non-empty
    run of name characters. *)
Lemma tag_name_sound (s : str) (g : caps) (k : str -> caps -> option R) (x : R) :
  rmatch (Group tag_name_part) s g k = Some x ->
  exists nm s',
    nm <> [] /\ forallb name_char nm = true
    /\ (k s' (g ++ [nm]) = Some x \/ k s' (g ++ [slash :: nm]) = Some x).
Proof.
  unfold tag_name_part. cbn [rmatch]. intros H.
  assert (P : forall pre s2,
             s = pre ++ s2 ->
             match s2 with
             | [] => None
             | c :: s' =>
                 if name_char c
                 then star_greedy name_char s'
                        (fun s'0 => k s'0 (g ++ [firstn (length s - length s'0) s]))
                 else None
             end = Some x ->
             exists nm s', nm <> [] /\ forallb name_char nm = true
                           /\ k s' (g ++ [pre ++ nm]) = Some x).
  { intros pre s2 E Hp. destruct s2 as [|c s3]; [discriminate|].
    destruct (name_char c) eqn:Nc; [|discriminate].
    apply star_greedy_sound in Hp as (w & s4 & -> & Hw & Hk).
    exists (c :: w), s4. split; [discriminate|]. split.
    - cbn [forallb]. rewrite Nc, Hw. reflexivity.
    - subst s.
      replace (pre ++ c :: w ++ s4) with ((pre ++ c :: w) ++ s4) in Hk
        by (rewrite <- app_assoc; reflexivity).
      rewrite firstn_length_diff in Hk. exact Hk. }
  destruct s as [|c0 s1].
  - exfalso. cbn in H. discriminate.
  - destruct (only slash c0) eqn:Sc.
    + unfold only in Sc. apply N.eqb_eq in Sc. subst c0.
      match type of H with
      | match ?a with Some y => Some y | None => ?b end = _ =>
          destruct a eqn:A1
      end.
      * inversion H; subst.
        destruct (P [slash] s1 eq_refl A1) as (nm & s' & Hn & Hc & Hk).
        exists nm, s'. auto.
      * destruct (P [] (slash :: s1) eq_refl H) as (nm & s' & Hn & Hc & Hk).
        exists nm, s'. auto.
    + destruct (P [] (c0 :: s1) eq_refl H) as (nm & s' & Hn & Hc & Hk).
      exists nm, s'. auto.
Qed.

(** What follows the name adds one group: nothing or a slash. *)
Lemma tag_rest_sound (s : str) (g : caps) (k : str -> caps -> option R) (x : R) :
  rmatch tag_rest_part s g k = Some x ->
  exists s', k s' (g ++ [[]]) = Some x \/ k s' (g ++ [[slash]]) = Some x.
Proof.
  unfold tag_rest_part. intros H.
  assert (T : forall s0,
             rmatch (Cat (Group (Opt (Class (only slash))))
                         (Cat (Star space) (Class (only rangle)))) s0 g k
             = Some x ->
             exists s', k s' (g ++ [[]]) = Some x
                        \/ k s' (g ++ [[slash]]) = Some x).
  { intros s0 H0. cbn [rmatch] in H0.
    assert (Q : forall s1 cap,
               star_greedy space s1
                 (fun s' => match s' with
                            | [] => None
                            | c :: s'0 =>
                                if only rangle c then k s'0 (g ++ [cap]) else None
                            end) = Some x ->
               exists s', k s' (g ++ [cap]) = Some x).
    { intros s1 cap Hq. apply star_greedy_sound in Hq as (w & s2 & _ & _ & Hk).
      destruct s2 as [|c s3]; [discriminate|].
      destruct (only rangle c); [|discriminate]. exists s3; exact Hk. }
    destruct s0 as [|c s1].
    - rewrite Nat.sub_diag in H0. cbn [firstn] in H0.
      destruct (Q [] [] H0) as [s' Hk]. exists s'; left; exact Hk.
    - destruct (only slash c) eqn:Sc.
      + unfold only in Sc. apply N.eqb_eq in Sc. subst c.
        match type of H0 with
        | match ?a with Some y => Some y | None => ?b end = _ =>
            destruct a eqn:A1
        end.
        * inversion H0; subst.
          replace (length (slash :: s1) - length s1) with 1 in A1
            by (cbn [length]; lia).
          cbn [firstn] in A1.
          destruct (Q s1 [slash] A1) as [s' Hk]. exists s'; right; exact Hk.
        * rewrite Nat.sub_diag in H0. cbn [firstn] in H0.
          destruct (Q _ [] H0) as [s' Hk]. exists s'; left; exact Hk.
      + rewrite Nat.sub_diag in H0. cbn [firstn] in H0.
        destruct (Q _ [] H0) as [s' Hk]. exists s'; left; exact Hk. }
  rewrite rmatch_Cat in H. cbn [rmatch] in H.
  match type of H with
  | match ?a with Some y => Some y | None => ?b end = _ =>
      destruct a eqn:A1
  end.
  - inversion H; subst. destruct s as [|c s1]; [discriminate|].
    destruct (space c); [|discriminate].
    apply star_greedy_sound in A1 as (w & s2 & _ & _ & A1).
    apply star_lazy_sound in A1 as (w' & s3 & _ & _ & A1).
    apply (T s3). cbn [rmatch]. exact A1.
  - apply (T s). cbn [rmatch]. exact H.
Qed.
End Soundness.

Lemma match_at_tag_sound (s : str) (n : nat) (g : caps) :
  match_at tag_re s = Some (n, g) ->
  exists nm sc,
    nm <> [] /\ forallb name_char nm = true
    /\ (g = [nm; sc] \/ g = [slash :: nm; sc])
    /\ (sc = [] \/ sc = [slash]).
Proof.
  unfold match_at, tag_re. rewrite rmatch_Cat. intros H.
  destruct s as [|c s1]; [discriminate|]. rewrite rmatch_Class in H.
  destruct (only langle c); [|discriminate]. rewrite rmatch_Cat in H.
  apply tag_name_sound in H as (nm & s2 & Hn & Hc & H).
  exists nm.
  destruct H as [H|H]; apply tag_rest_sound in H as [s3 [H|H]];
    inversion H; subst; eexists; repeat split; eauto.
Qed.

(** X3: every tuple the tag pattern yields, on any text, has a first group
    made of an optional leading slash and a non-empty run of ASCII letters,
    digits and hyphens, and a second group that is empty or one slash: the
    name a close tag announces is never empty, and the names the loop
    lower-cases are ASCII. *)
Theorem tag_tuples_well_formed (text : str) (tag_name self_closing : str) :
  In (tag_name, self_closing) (map tag_tuple (findall tag_re text)) ->
  (exists nm, nm <> [] /\ forallb name_char nm = true
              /\ (tag_name = nm \/ tag_name = slash :: nm))
  /\ (self_closing = [] \/ self_closing = [slash]).
Proof.
  intros H. apply in_map_iff in H as (g & Hg & H).
  unfold findall in H. apply scan_In in H as [(u & n & x & M & Hx)|(c & _ & [])].
  destruct Hx as [->|[]].
  apply match_at_tag_sound in M as (nm & sc & Hn & Hc & Hg' & Hsc).
  assert (E : tag_tuple g = (tag_name, self_closing)) by exact Hg.
  destruct Hg' as [-> | ->]; cbn [tag_tuple nth] in E;
    injection E as E1 E2; rewrite <- E1, <- E2;
    (split; [exists nm; auto | exact Hsc]).
Qed.

Lemma tag_tuples_well_formed_witness :
  (exists nm, nm <> [] /\ forallb name_char nm = true
              /\ (py "/my-card" = nm \/ py "/my-card" = slash :: nm))
  /\ (@nil char = [] \/ @nil char = [slash]).
Proof.
  apply (tag_tuples_well_formed (py "<p class='a' ></my-card  >") (py "/my-card") []).
  vm_compute. right; left; reflexivity.
Defined.

(** ** Texts without an opening angle, and plain texts *)

Lemma scan_sub_forallb (A : Type) (m : str -> option (nat * A))
      (P : char -> bool) (repl s : str) (skip : nat) :
  forallb P repl = true -> forallb P s = true ->
  forallb P (scan m (fun _ => repl) (fun c => [c]) s skip) = true.
Proof.
  intros Hr. revert skip; induction s as [|c s IH]; intros skip Hs; cbn [scan].
  - destruct skip; [|reflexivity]. destruct (m []) as [[? ?]|]; auto.
  - cbn [forallb] in Hs. apply andb_true_iff in Hs as [Hc Hs].
    destruct skip; [|apply IH; exact Hs].
    destruct (m (c :: s)) as [[[|n] x]|]; rewrite ?forallb_app; cbn [forallb];
      rewrite ?Hr, ?Hc, ?IH by exact Hs; reflexivity.
Qed.

Lemma findall_no_angle (s : str) :
  forallb (except langle) s = true -> findall tag_re s = [].
Proof.
  intros H. unfold findall. rewrite <- (app_nil_r s).
  rewrite scan_no_match.
  - cbn [scan]. change (match_at tag_re []) with (@None (nat * caps)).
    rewrite app_nil_r. clear H. induction s; [reflexivity | exact IHs].
  - intros u1 c u2 ->. rewrite forallb_app in H.
    apply andb_true_iff in H as [_ H]. cbn [forallb] in H.
    apply andb_true_iff in H as [H _]. unfold except in H.
    unfold match_at, tag_re. rewrite rmatch_Cat, rmatch_Class.
    unfold only. destruct (N.eqb langle c); [discriminate H | reflexivity].
Qed.

Lemma clean_template_no_angle (s : str) :
  forallb (except langle) s = true ->
  forallb (except langle) (check_tags_v3.clean_template s) = true.
Proof.
  intros H. unfold check_tags_v3.clean_template, sub.
  repeat (apply scan_sub_forallb; [reflexivity|]). exact H.
Qed.

(** X4: a template body without any opening angle yields no message,
    whatever else it holds (closing angles, quotes, slashes): the tag
    pattern finds nothing in it, before or after cleaning. *)
Theorem no_angle_no_diagnostics (template : str) :
  forallb (except langle) template = true ->
  check_tags_v3.check_template template = []
  /\ check_tags_v2.check_template template = []
  /\ check_tags_v3.check_file_tags (wrap template) = [].
Proof.
  intros H.
  assert (E3 : check_tags_v3.check_template template = []).
  { unfold check_tags_v3.check_template.
    rewrite (findall_no_angle _ (clean_template_no_angle _ H)). reflexivity. }
  split; [exact E3 | split].
  - unfold check_tags_v2.check_template.
    rewrite findall_no_angle; [reflexivity|].
    unfold sub. apply scan_sub_forallb; [reflexivity | exact H].
  - destruct (check_file_tags_extracted (wrap template)) as [-> _].
    rewrite extracted_wrap. exact E3.
Qed.

Lemma no_angle_no_diagnostics_witness :
  check_tags_v3.check_template (py "a > b ? 'x' : y /> -->") = [].
Proof.
  apply (no_angle_no_diagnostics (py "a > b ? 'x' : y /> -->")). reflexivity.
Defined.

Lemma strip_comments_no_opener (s : str) :
  contains (py "<!--") s = false -> strip_comments s = s.
Proof.
  intros H. rewrite <- (app_nil_r s) at 1.
  rewrite strip_comments_prefix; [rewrite strip_comments_nil; apply app_nil_r|].
  apply (no_marker_before (py "<!--") s []).
  cbn [firstn]. rewrite app_nil_r. exact H.
Qed.

(** X5: a text with no quote character and no comment opener leaves
    [clean_template] as it came in. *)
Theorem clean_template_plain (template : str) :
  no_quotes template = true ->
  contains (py "<!--") template = false ->
  check_tags_v3.clean_template template = template.
Proof.
  intros Hq Hc. rewrite clean_template_scans.
  rewrite (collapse_quotes_id _ Hq). apply strip_comments_no_opener; exact Hc.
Qed.

Lemma clean_template_plain_witness :
  check_tags_v3.clean_template (py "<div class=a><img><!- x -></div>")
  = py "<div class=a><img><!- x -></div>".
Proof.
  apply (clean_template_plain (py "<div class=a><img><!- x -></div>"));
    reflexivity.
Defined.

(** ** Length of the cleaned text *)

Lemma scan_sub_length (A : Type) (m : str -> option (nat * A))
      (repl s : str) (skip : nat) :
  (forall u n x, m u = Some (n, x) -> length repl <= n /\ n <= length u) ->
  skip <= length s ->
  length (scan m (fun _ => repl) (fun c => [c]) s skip) + skip <= length s.
Proof.
  intros Hm. revert skip; induction s as [|c s IH]; intros skip Hs; cbn [scan].
  - cbn [length] in Hs. destruct skip; [|lia].
    destruct (m []) as [[n x]|] eqn:M; [|cbn [length]; lia].
    destruct (Hm _ _ _ M) as [H1 H2]. cbn [length] in *. lia.
  - cbn [length] in *. destruct skip as [|k].
    + destruct (m (c :: s)) as [[[|n] x]|] eqn:M.
      * destruct (Hm _ _ _ M) as [H1 _].
        assert (length repl = 0) as E by lia.
        rewrite !length_app, E. cbn [length].
        specialize (IH 0 ltac:(lia)). lia.
      * destruct (Hm _ _ _ M) as [H1 H2]. cbn [length] in H2.
        rewrite length_app. specialize (IH n ltac:(lia)). lia.
      * cbn [app length]. specialize (IH 0 ltac:(lia)). lia.
    + specialize (IH k ltac:(lia)). lia.
Qed.

Lemma literal_span_bounds (q : char) (u : str) (n : nat) (x : unit) :
  literal_span q u = Some (n, x) -> 2 <= n /\ n <= length u.
Proof.
  unfold literal_span. destruct u as [|c u]; [discriminate|].
  destruct (N.eqb q c); [|discriminate].
  destruct (find_first [q] u) as [[body rest]|] eqn:F; [|discriminate].
  intros H; inversion H; subst. apply find_first_Some in F. subst u.
  cbn [length]. rewrite !length_app. cbn [length]. lia.
Qed.

Lemma comment_span_bounds (u : str) (n : nat) (x : unit) :
  comment_span u = Some (n, x) -> 7 <= n /\ n <= length u.
Proof.
  unfold comment_span.
  destruct (strip_prefix (py "<!--") u) as [s1|] eqn:P; [|discriminate].
  destruct (find_first (py "-->") s1) as [[body rest]|] eqn:F; [|discriminate].
  intros H; inversion H; subst. apply find_first_Some in F.
  apply strip_prefix_Some in P. subst u s1. rewrite !length_app.
  change (length (py "<!--")) with 4. change (length (py "-->")) with 3. lia.
Qed.

(** X6: [clean_template] never makes a text longer: a literal keeps at most
    its two quotes, a comment nothing, and all other characters pass once. *)
Theorem clean_template_not_longer (template : str) :
  length (check_tags_v3.clean_template template) <= length template.
Proof.
  rewrite clean_template_scans. unfold collapse_quotes.
  assert (Q : forall q s, length (collapse_literals q s) <= length s).
  { intros q s. unfold collapse_literals.
    pose proof (scan_sub_length unit (literal_span q) [q; q] s 0) as H.
    rewrite Nat.add_0_r in H. apply H; [|lia].
    intros u n x M. apply literal_span_bounds in M. cbn [length]. lia. }
  assert (C : forall s, length (strip_comments s) <= length s).
  { intros s. unfold strip_comments.
    pose proof (scan_sub_length unit comment_span [] s 0) as H.
    rewrite Nat.add_0_r in H. apply H; [|lia].
    intros u n x M. apply comment_span_bounds in M. cbn [length]. lia. }
  eapply Nat.le_trans; [apply C|].
  eapply Nat.le_trans; [apply Q|]. apply Q.
Qed.

(** ** The loop of the regex scripts on whole token lists *)

Lemma loop_body_slash (tag_name : str) (st : list str * list str) :
  loop_body st (tag_name, py "/") = st.
Proof. destruct st. reflexivity. Qed.

Lemma loop_body_match (stack errors : list str) (n : str) :
  loop_body (stack ++ [n], errors) (slash :: n, []) = (stack, errors).
Proof. rewrite loop_body_close, pop_snoc, str_eqb_refl. reflexivity. Qed.

Lemma well_nested_neutral (w : list (str * str)) :
  well_nested w ->
  forall st, fold_left loop_body w st = st.
Proof.
  induction 1 as [|tag_name w _ IH|n w Hn Hv _ IH|n inner w Hn Hv _ IHi _ IHw];
    intros [stack errors]; cbn [fold_left].
  - reflexivity.
  - rewrite loop_body_slash. apply IH.
  - rewrite (loop_body_void _ _ _ (name_not_slash _ Hn) Hv). apply IH.
  - rewrite (loop_body_open _ _ _ (name_not_slash _ Hn) Hv).
    rewrite fold_left_app, IHi. cbn [fold_left].
    rewrite loop_body_match. apply IHw.
Qed.

(** X7: a well-nested list of tags, with void elements and tags with a
    closing slash in any mix, yields no message; inside a longer list it
    leaves stack and messages as they were, so the result is that of the
    list without it. *)
Theorem well_nested_no_diagnostics (w before after : list (str * str)) :
  well_nested w ->
  balance w = []
  /\ balance (before ++ w ++ after) = balance (before ++ after).
Proof.
  intros H. split.
  - unfold balance. rewrite (well_nested_neutral w H). reflexivity.
  - unfold balance. rewrite !fold_left_app, (well_nested_neutral w H).
    reflexivity.
Qed.

Lemma well_nested_no_diagnostics_witness :
  balance (map tag_tuple
             (findall tag_re (py "<div><img><br/><span></span><P /></div>")))
  = [].
Proof.
  apply (well_nested_no_diagnostics
           (map tag_tuple
              (findall tag_re (py "<div><img><br/><span></span><P /></div>")))
           [] []).
  vm_compute.
  apply (@wn_pair (py "div")
           [(py "img", []); (py "br", py "/"); (py "span", []);
            (py "/span", []); (py "P", py "/")] []);
    try reflexivity; [|constructor].
  apply wn_void; try reflexivity. apply wn_slash.
  apply (@wn_pair (py "span") [] [(py "P", py "/")]); try reflexivity;
    repeat constructor.
Defined.

Lemma pop_Some (A : Type) (l l' : list A) (x : A) :
  pop l = Some (l', x) -> l = l' ++ [x].
Proof.
  unfold pop. destruct (rev l) as [|y r] eqn:E; [discriminate|].
  intros H; inversion H; subst.
  rewrite <- (rev_involutive l), E. reflexivity.
Qed.

Lemma pop_None (A : Type) (l : list A) : pop l = None -> l = [].
Proof.
  unfold pop. destruct (rev l) as [|y r] eqn:E; [|discriminate].
  intros _. rewrite <- (rev_involutive l), E. reflexivity.
Qed.

(** Each token moves the sizes of stack and messages by at most one in
    total. *)
Lemma loop_body_sizes (st : list str * list str) (t : str * str) :
  length (fst (loop_body st t)) + length (snd (loop_body st t))
  <= S (length (fst st) + length (snd st)).
Proof.
  destruct st as [stack errors], t as [tag_name self_closing].
  unfold loop_body.
  destruct (str_eqb self_closing (py "/")); [cbn [fst snd]; lia|].
  destruct (startswith (py "/") tag_name).
  - destruct (pop stack) as [[stack' last_tag]|] eqn:P.
    + apply pop_Some in P. subst stack.
      destruct (negb (str_eqb last_tag (skipn 1 tag_name)));
        cbn [fst snd]; rewrite ?length_app; cbn [length]; lia.
    + cbn [fst snd]. rewrite length_app. cbn [length]. lia.
  - destruct (negb (mem (lower tag_name) html5_self_closing));
      cbn [fst snd]; rewrite ?length_app; cbn [length]; lia.
Qed.

Lemma fold_sizes (tags : list (str * str)) (st : list str * list str) :
  length (fst (fold_left loop_body tags st))
  + length (snd (fold_left loop_body tags st))
  <= length tags + (length (fst st) + length (snd st)).
Proof.
  revert st; induction tags as [|t tags IH]; intros st; cbn [fold_left length].
  - lia.
  - pose proof (IH (loop_body st t)). pose proof (loop_body_sizes st t). lia.
Qed.

(** X8: there is at most one message per tag: the list of messages is never
    longer than the list of tags found. *)
Theorem at_most_one_message_per_tag (tags : list (str * str)) :
  length (balance tags) <= length tags.
Proof.
  unfold balance. pose proof (fold_sizes tags ([], [])) as H.
  destruct (fold_left loop_body tags ([], [])) as [stack errors].
  cbn [fst snd length] in H.
  rewrite length_app, length_map. lia.
Qed.

(** The stack only ever holds names that were pushed: no leading slash, not
    a void element. *)
Lemma loop_body_stack_names (st : list str * list str) (t : str * str) :
  Forall (fun n => mem (lower n) html5_self_closing = false) (fst st) ->
  Forall (fun n => mem (lower n) html5_self_closing = false)
         (fst (loop_body st t)).
Proof.
  destruct st as [stack errors], t as [tag_name self_closing].
  unfold loop_body. cbn [fst]. intros H.
  destruct (str_eqb self_closing (py "/")); [exact H|].
  destruct (startswith (py "/") tag_name).
  - destruct (pop stack) as [[stack' last_tag]|] eqn:P; [|exact H].
    apply pop_Some in P. subst stack. apply Forall_app in H as [H _].
    destruct (negb (str_eqb last_tag (skipn 1 tag_name))); exact H.
  - destruct (mem (lower tag_name) html5_self_closing) eqn:V;
      cbn [negb fst]; [exact H|].
    apply Forall_app. split; [exact H|]. constructor; [exact V | constructor].
Qed.

Lemma fold_stack_names (tags : list (str * str)) (st : list str * list str) :
  Forall (fun n => mem (lower n) html5_self_closing = false) (fst st) ->
  Forall (fun n => mem (lower n) html5_self_closing = false)
         (fst (fold_left loop_body tags st)).
Proof.
  revert st; induction tags as [|t tags IH]; intros st H; cbn [fold_left];
    [exact H|].
  apply IH, loop_body_stack_names, H.
Qed.

(** The messages the loop itself adds are of the two other kinds. *)
Lemma loop_body_errors_kinds (st : list str * list str) (t : str * str) :
  Forall (fun e => firstn 3 e <> py "Unc") (snd st) ->
  Forall (fun e => firstn 3 e <> py "Unc") (snd (loop_body st t)).
Proof.
  destruct st as [stack errors], t as [tag_name self_closing].
  unfold loop_body. cbn [snd]. intros H.
  destruct (str_eqb self_closing (py "/")); [exact H|].
  destruct (startswith (py "/") tag_name).
  - destruct (pop stack) as [[stack' last_tag]|]; cbn [snd].
    + destruct (negb (str_eqb last_tag (skipn 1 tag_name))); cbn [snd];
        [|exact H].
      apply Forall_app. split; [exact H|].
      constructor; [discriminate | constructor].
    + apply Forall_app. split; [exact H|].
      constructor; [discriminate | constructor].
  - destruct (negb (mem (lower tag_name) html5_self_closing)); exact H.
Qed.

Lemma fold_errors_kinds (tags : list (str * str)) (st : list str * list str) :
  Forall (fun e => firstn 3 e <> py "Unc") (snd st) ->
  Forall (fun e => firstn 3 e <> py "Unc") (snd (fold_left loop_body tags st)).
Proof.
  revert st; induction tags as [|t tags IH]; intros st H; cbn [fold_left];
    [exact H|].
  apply IH, loop_body_errors_kinds, H.
Qed.

(** X9: a void element is never reported as unclosed, in whatever case it
    is written and whatever tags surround it: every "Unclosed tag" message
    names a tag whose lower-cased name lies outside the set. *)
Theorem void_never_reported_unclosed (tags : list (str * str)) (n : str) :
  In (msg_unclosed n) (balance tags) ->
  mem (lower n) html5_self_closing = false.
Proof.
  unfold balance.
  pose proof (fold_stack_names tags ([], []) (Forall_nil _)) as Hs.
  pose proof (fold_errors_kinds tags ([], []) (Forall_nil _)) as He.
  destruct (fold_left loop_body tags ([], [])) as [stack errors].
  cbn [fst snd] in Hs, He. intros H. apply in_app_or in H as [H|H].
  - exfalso. rewrite Forall_forall in He. apply (He _ H). reflexivity.
  - apply in_map_iff in H as (n' & E & Hn).
    unfold msg_unclosed in E. apply app_inv_head in E.
    apply app_inv_tail in E. subst n'.
    rewrite Forall_forall in Hs. exact (Hs _ Hn).
Qed.

Lemma void_never_reported_unclosed_witness :
  mem (lower (py "Span")) html5_self_closing = false.
Proof.
  apply (void_never_reported_unclosed
           [(py "BR", []); (py "/p", []); (py "Span", []); (py "img", [])]
           (py "Span")).
  vm_compute. right; left; reflexivity.
Defined.

(** ** Tags with a closing slash, and attribute values *)

Lemma space_plain (c : char) :
  space c = true ->
  c <> slash /\ c <> rangle /\ c <> dquote /\ c <> squote /\ c <> 33%N
  /\ name_char c = false.
Proof.
  unfold space, name_char, slash, rangle, dquote, squote. intros H.
  assert (E : forall a b : bool, a = false -> b = false -> a || b = false)
    by (intros [] []; auto).
  assert (F : forall a b : bool, a = false \/ b = false -> a && b = false)
    by (intros [] [] [|]; auto).
  repeat (apply orb_true_iff in H as [H|H]);
    try (apply andb_true_iff in H as [H1 H2];
         apply N.leb_le in H1; apply N.leb_le in H2);
    try apply N.eqb_eq in H;
    (repeat split; [lia | lia | lia | lia | lia |]);
    repeat apply E;
    try (apply N.eqb_neq; lia);
    apply F; rewrite !N.leb_gt; lia.
Qed.

Ltac eval_classes :=
  repeat match goal with
         | |- context [space ?c] =>
             let b := eval vm_compute in (space c) in
             change (space c) with b
         | |- context [name_char ?c] =>
             let b := eval vm_compute in (name_char c) in
             change (name_char c) with b
         | |- context [only ?a ?c] =>
             let b := eval vm_compute in (only a c) in
             change (only a c) with b
         | |- context [except ?a ?c] =>
             let b := eval vm_compute in (except a c) in
             change (except a c) with b
         end.

Section TagPatternMore.
Variable R : Type.

(** The name ends where a character outside the name class follows. *)
Lemma tag_name_before (c d : char) (n t : str) (g : caps)
      (k : str -> caps -> option R) (x : R) :
  name_char c = true -> forallb name_char n = true -> name_char d = false ->
  k (d :: t) (g ++ [c :: n]) = Some x ->
  rmatch (Group tag_name_part) (c :: n ++ d :: t) g k = Some x.
Proof.
  intros Hc Hn Hd Hk. unfold tag_name_part. cbn [rmatch].
  destruct (name_char_plain c Hc) as [Hs _].
  unfold only at 1. rewrite (proj2 (N.eqb_neq slash c)) by congruence.
  rewrite Hc. apply star_greedy_run; [exact Hn|].
  cbn [star_greedy]. rewrite Hd.
  change (c :: n ++ d :: t) with ((c :: n) ++ d :: t).
  rewrite firstn_length_diff. exact Hk.
Qed.

Lemma tag_end_on_slash (rest : str) (g : caps) (k : str -> caps -> option R)
      (x : R) :
  k rest (g ++ [[slash]]) = Some x ->
  rmatch (Cat (Group (Opt (Class (only slash))))
              (Cat (Star space) (Class (only rangle))))
         (slash :: rangle :: rest) g k = Some x.
Proof.
  intros Hk. cbn [rmatch star_greedy]. eval_classes. cbv iota.
  replace (length (slash :: rangle :: rest) - length (rangle :: rest)) with 1
    by (cbn [length]; lia).
  cbn [firstn]. rewrite Hk. reflexivity.
Qed.

(** White space, a slash and the closing angle after the name: the second
    group is the slash. *)
Lemma tag_rest_on_slash (ws rest : str) (g : caps)
      (k : str -> caps -> option R) (x : R) :
  forallb space ws = true ->
  k rest (g ++ [[slash]]) = Some x ->
  rmatch tag_rest_part (ws ++ slash :: rangle :: rest) g k = Some x.
Proof.
  intros Hw Hk. unfold tag_rest_part. rewrite rmatch_Cat.
  pose proof (tag_end_on_slash rest g k x Hk) as T.
  destruct ws as [|c ws].
  - cbn [app]. cbn [rmatch] in *. eval_classes. cbv iota. exact T.
  - cbn [forallb] in Hw. apply andb_true_iff in Hw as [Hc Hw].
    cbn [app]. cbn [rmatch] in *. rewrite Hc.
    erewrite star_greedy_run; [reflexivity | exact Hw |].
    cbn [star_greedy]. eval_classes. cbv iota.
    cbn [star_lazy]. rewrite T. reflexivity.
Qed.

(** One attribute with an empty double-quoted value after the name. *)
Lemma tag_rest_on_attribute (rest : str) (g : caps)
      (k : str -> caps -> option R) :
  rmatch tag_rest_part (py " title=" ++ [dquote; dquote; rangle] ++ rest) g k
  = k rest (g ++ [[]]).
Proof.
  unfold tag_rest_part.
  change (py " title=" ++ [dquote; dquote; rangle] ++ rest)
    with (32 :: 116 :: 105 :: 116 :: 108 :: 101 :: 61 :: 34 :: 34 :: 62 :: rest)%N.
  cbn [rmatch star_greedy star_lazy]. eval_classes. cbv iota.
  repeat (cbn [star_greedy star_lazy]; eval_classes; cbv iota).
  rewrite Nat.sub_diag. cbn [firstn].
  destruct (k rest (g ++ [[]])); reflexivity.
Qed.
End TagPatternMore.

Lemma space_chars_plain (ws : str) :
  forallb space ws = true ->
  no_quotes ws = true /\ forallb (except 33%N) ws = true.
Proof.
  unfold no_quotes, except. induction ws as [|c ws IH]; cbn [forallb]; [auto|].
  intros H. apply andb_true_iff in H as [Hc Hw].
  destruct (IH Hw) as [IH1 IH2]. rewrite IH1, IH2.
  destruct (space_plain c Hc) as (_ & _ & Hd & Hs & Hb & _).
  rewrite (proj2 (N.eqb_neq dquote c)), (proj2 (N.eqb_neq squote c)),
    (proj2 (N.eqb_neq 33%N c)) by congruence.
  auto.
Qed.

Lemma match_at_tag_slash (c : char) (n ws rest : str) :
  name_char c = true -> forallb name_char n = true ->
  forallb space ws = true ->
  match_at tag_re (langle :: c :: n ++ ws ++ slash :: rangle :: rest)
  = Some (S (length (c :: n ++ ws ++ [slash; rangle])), [c :: n; [slash]]).
Proof.
  intros Hc Hn Hw. unfold match_at, tag_re. rewrite rmatch_Cat.
  rewrite rmatch_Class. change (only langle langle) with true. cbv iota.
  rewrite rmatch_Cat.
  assert (D : exists d t, ws ++ slash :: rangle :: rest = d :: t
                          /\ name_char d = false).
  { destruct ws as [|d ws]; [exists slash, (rangle :: rest); auto|].
    cbn [forallb] in Hw. apply andb_true_iff in Hw as [Hd _].
    exists d, (ws ++ slash :: rangle :: rest).
    split; [reflexivity | apply (space_plain d Hd)]. }
  destruct D as (d & t & E & Hd). rewrite E.
  apply tag_name_before; [exact Hc | exact Hn | exact Hd |].
  rewrite <- E. apply tag_rest_on_slash; [exact Hw|].
  cbn [app]. do 2 f_equal.
  cbn [length]. repeat (rewrite length_app; cbn [length]). lia.
Qed.

Lemma findall_tag_slash (n ws : str) :
  n <> [] -> forallb name_char n = true -> forallb space ws = true ->
  findall tag_re (langle :: n ++ ws ++ [slash; rangle]) = [[n; [slash]]].
Proof.
  intros Hn Hc Hw. destruct n as [|c n]; [congruence|].
  cbn [forallb] in Hc. apply andb_true_iff in Hc as [Hc Hcn].
  unfold findall.
  replace (langle :: (c :: n) ++ ws ++ [slash; rangle])
    with (langle :: (c :: n ++ ws ++ [slash; rangle]) ++ [])
    by (rewrite app_nil_r; reflexivity).
  rewrite (scan_hit _ _ _ _ _ _ _ _ [c :: n; [slash]]); [reflexivity|].
  rewrite app_nil_r.
  change (c :: n ++ ws ++ [slash; rangle])
    with (c :: n ++ ws ++ slash :: rangle :: []).
  apply match_at_tag_slash; assumption.
Qed.

(** X10: a tag written with a closing slash, with or without white space
    before the slash, yields no message whatever its name: it is neither
    pushed nor reported, void element or not. *)
Theorem slash_tag_no_diagnostics (n ws : str) :
  n <> [] -> forallb name_char n = true -> forallb space ws = true ->
  check_tags_v3.check_template (langle :: n ++ ws ++ [slash; rangle]) = []
  /\ check_tags_v2.check_template (langle :: n ++ ws ++ [slash; rangle]) = [].
Proof.
  intros Hn Hc Hw.
  destruct (name_chars_plain n Hc) as [Qn Bn].
  destruct (space_chars_plain ws Hw) as [Qw Bw].
  assert (B : forallb (except 33%N) (langle :: n ++ ws ++ [slash; rangle]) = true).
  { change (langle :: n ++ ws ++ [slash; rangle])
      with ([langle] ++ n ++ ws ++ [slash; rangle]).
    rewrite !forallb_app, Bn, Bw. reflexivity. }
  assert (Q : no_quotes (langle :: n ++ ws ++ [slash; rangle]) = true).
  { change (langle :: n ++ ws ++ [slash; rangle])
      with ([langle] ++ n ++ ws ++ [slash; rangle]).
    rewrite !no_quotes_app, Qn, Qw. reflexivity. }
  split.
  - unfold check_tags_v3.check_template.
    rewrite clean_template_scans, (collapse_quotes_id _ Q),
      (strip_comments_id _ B), (findall_tag_slash n ws Hn Hc Hw).
    reflexivity.
  - unfold check_tags_v2.check_template.
    rewrite sub_comment, (strip_comments_id _ B),
      (findall_tag_slash n ws Hn Hc Hw).
    reflexivity.
Qed.

Lemma slash_tag_no_diagnostics_witness :
  check_tags_v3.check_template
    (langle :: py "MyWidget" ++ [32; 10; 9]%N ++ [slash; rangle]) = [].
Proof.
  apply (slash_tag_no_diagnostics (py "MyWidget") [32; 10; 9]%N);
    try discriminate; reflexivity.
Defined.

Lemma match_at_tag_attribute (c : char) (n rest : str) :
  name_char c = true -> forallb name_char n = true ->
  match_at tag_re
    (langle :: c :: n ++ py " title=" ++ [dquote; dquote; rangle] ++ rest)
  = Some (S (length (c :: n ++ py " title=" ++ [dquote; dquote; rangle])),
          [c :: n; []]).
Proof.
  intros Hc Hn. unfold match_at, tag_re. rewrite rmatch_Cat.
  rewrite rmatch_Class. change (only langle langle) with true. cbv iota.
  rewrite rmatch_Cat.
  change (py " title=" ++ [dquote; dquote; rangle] ++ rest)
    with (32%N :: py "title=" ++ [dquote; dquote; rangle] ++ rest).
  apply tag_name_before; [exact Hc | exact Hn | reflexivity |].
  change (32%N :: py "title=" ++ [dquote; dquote; rangle] ++ rest)
    with (py " title=" ++ [dquote; dquote; rangle] ++ rest).
  rewrite tag_rest_on_attribute. cbn [app]. do 2 f_equal.
  cbn [length]. repeat (rewrite length_app; cbn [length]). lia.
Qed.

(** X11: whatever stands in a double-quoted attribute value (angles,
    slashes, single quotes, comment markers, whole tags) yields no tag: the
    open tag that carries the attribute is the only one found, and it is
    reported as unclosed unless it is a void element. *)
Theorem attribute_value_yields_no_tag (n v : str) :
  n <> [] -> forallb name_char n = true ->
  forallb (except dquote) v = true ->
  check_tags_v3.check_file_tags
    (wrap (langle :: n ++ py " title=" ++ dquote :: v ++ [dquote; rangle]))
  = if mem (lower n) html5_self_closing then [] else [msg_unclosed n].
Proof.
  intros Hn Hc Hv.
  destruct (check_file_tags_extracted
              (wrap (langle :: n ++ py " title=" ++ dquote :: v ++ [dquote; rangle])))
    as [-> _].
  rewrite extracted_wrap. unfold check_tags_v3.check_template.
  destruct (name_chars_plain n Hc) as [Qn Bn].
  apply no_quotes_except in Qn as [Dn Sn].
  assert (C : check_tags_v3.clean_template
                (langle :: n ++ py " title=" ++ dquote :: v ++ [dquote; rangle])
              = langle :: n ++ py " title=" ++ [dquote; dquote; rangle]).
  { rewrite clean_template_scans. unfold collapse_quotes.
    replace (langle :: n ++ py " title=" ++ dquote :: v ++ [dquote; rangle])
      with ((langle :: n ++ py " title=") ++ dquote :: v ++ dquote :: [rangle])
      by (cbn [app]; rewrite <- app_assoc; reflexivity).
    rewrite collapse_literals_literal; [| |exact Hv].
    - change (collapse_literals dquote [rangle]) with [rangle].
      rewrite collapse_literals_id, strip_comments_id.
      + cbn [app]. rewrite <- app_assoc. reflexivity.
      + change (langle :: n ++ py " title=")
          with ([langle] ++ n ++ py " title=").
        rewrite !forallb_app, Bn. reflexivity.
      + change (langle :: n ++ py " title=")
          with ([langle] ++ n ++ py " title=").
        rewrite !forallb_app, Sn. reflexivity.
    - change (langle :: n ++ py " title=")
        with ([langle] ++ n ++ py " title=").
      rewrite !forallb_app, Dn. reflexivity. }
  rewrite C. clear C.
  assert (F : findall tag_re (langle :: n ++ py " title=" ++ [dquote; dquote; rangle])
              = [[n; []]]).
  { destruct n as [|c n]; [congruence|].
    cbn [forallb] in Hc. apply andb_true_iff in Hc as [Hc Hcn].
    unfold findall.
    replace (langle :: (c :: n) ++ py " title=" ++ [dquote; dquote; rangle])
      with (langle :: (c :: n ++ py " title=" ++ [dquote; dquote; rangle]) ++ [])
      by (rewrite app_nil_r; reflexivity).
    rewrite (scan_hit _ _ _ _ _ _ _ _ [c :: n; []]); [reflexivity|].
    rewrite app_nil_r.
    pose proof (match_at_tag_attribute c n [] Hc Hcn) as M.
    rewrite app_nil_r in M. exact M. }
  rewrite F. cbn [map tag_tuple nth]. unfold balance. cbn [fold_left].
  pose proof (name_not_slash n Hc) as Hs.
  destruct (mem (lower n) html5_self_closing) eqn:V.
  - rewrite (loop_body_void _ _ _ Hs V). reflexivity.
  - rewrite (loop_body_open _ _ _ Hs V). reflexivity.
Qed.

Lemma attribute_value_yields_no_tag_witness :
  check_tags_v3.check_file_tags
    (wrap (langle :: py "a" ++ py " title="
             ++ dquote :: py "x > y </a><b><!-- it's -->" ++ [dquote; rangle]))
  = if mem (lower (py "a")) html5_self_closing then [] else [msg_unclosed (py "a")].
Proof.
  apply (attribute_value_yields_no_tag (py "a") (py "x > y </a><b><!-- it's -->"));
    try discriminate; reflexivity.
Defined.

(** ** The parser-driven checker on whole callback lists *)

Section TagCheckerFacts.
Import check_tags.

Lemma handle_starttag_push (self : TagChecker) (tag : str) (at_ : pos) :
  mem tag self_closing = false ->
  handle_starttag self tag at_ = mk (tags self ++ [(tag, at_)]) (errors self).
Proof. intros H. unfold handle_starttag. rewrite H. reflexivity. Qed.

Lemma handle_endtag_match (rest : list (str * pos)) (errs : list str)
      (tag : str) (p at_ : pos) :
  handle_endtag (mk (rest ++ [(tag, p)]) errs) tag at_ = mk rest errs.
Proof.
  unfold handle_endtag. cbn [tags errors].
  rewrite pop_snoc, str_eqb_refl. reflexivity.
Qed.

Lemma feed_app (self : TagChecker) (e1 e2 : list event) :
  feed self (e1 ++ e2) = feed (feed self e1) e2.
Proof. apply fold_left_app. Qed.

Lemma feed_starts (stack : list (str * pos)) (errs : list str)
      (opened : list (str * pos)) :
  (forall e, In e opened -> mem (fst e) self_closing = false) ->
  feed (mk stack errs) (map (fun e => starttag (fst e) (snd e)) opened)
  = mk (stack ++ opened) errs.
Proof.
  revert stack; induction opened as [|[t p] opened IH]; intros stack H;
    cbn [map].
  - rewrite app_nil_r. reflexivity.
  - unfold feed in *. cbn [fold_left dispatch fst snd].
    rewrite handle_starttag_push by (apply (H (t, p)); left; reflexivity).
    cbn [tags errors]. rewrite IH by (intros; apply H; right; assumption).
    rewrite <- app_assoc. reflexivity.
Qed.

Lemma well_nested_events_neutral (w : list event) :
  well_nested_events w -> forall self, feed self w = self.
Proof.
  induction 1 as [|tag at_ w _ IH|tag at_ w Hv _ IH
                  |tag at1 at2 inner w Hv _ IHi _ IHw];
    intros [stack errs]; unfold feed in *; cbn [fold_left dispatch].
  - reflexivity.
  - apply IH.
  - unfold handle_starttag. rewrite Hv. apply IH.
  - rewrite handle_starttag_push by exact Hv. cbn [tags errors].
    rewrite fold_left_app, IHi. cbn [fold_left dispatch].
    rewrite handle_endtag_match. apply IHw.
Qed.

(** The recovery search only ever cuts the list. *)
Lemma recover_prefix (n : nat) (tags0 : list (str * pos)) (tag : str) :
  exists k, recover n tags0 tag = firstn k tags0.
Proof.
  induction n as [|i IH]; cbn [recover].
  - exists (length tags0). rewrite firstn_all. reflexivity.
  - destruct (nth_error tags0 i) as [[t q]|]; [|exact IH].
    destruct (str_eqb t tag); [exists i; reflexivity | exact IH].
Qed.
End TagCheckerFacts.

(** X12: in the parser-driven checker, a well-nested list of callbacks (every
    non-void start tag ended by an end tag of the same name in nesting
    order, void start tags and start-end tags anywhere) leaves the stack and
    the errors as they were: alone it yields an empty report, and inside a
    longer list it does not change the report. *)
Theorem well_nested_events_no_report
        (w before after : list check_tags.event) :
  well_nested_events w ->
  check_tags.report (check_tags.feed check_tags.init w) = []
  /\ check_tags.report
       (check_tags.feed check_tags.init (before ++ w ++ after))
     = check_tags.report (check_tags.feed check_tags.init (before ++ after)).
Proof.
  intros H. split.
  - rewrite (well_nested_events_neutral w H). reflexivity.
  - rewrite !feed_app, (well_nested_events_neutral w H). reflexivity.
Qed.

Lemma well_nested_events_no_report_witness :
  check_tags.report
    (check_tags.feed check_tags.init
       [check_tags.starttag (py "div") (1, 0);
        check_tags.starttag (py "img") (1, 5);
        check_tags.startendtag (py "p") (1, 10);
        check_tags.endtag (py "div") (1, 14)])
  = [].
Proof.
  apply (well_nested_events_no_report
           [check_tags.starttag (py "div") (1, 0);
            check_tags.starttag (py "img") (1, 5);
            check_tags.startendtag (py "p") (1, 10);
            check_tags.endtag (py "div") (1, 14)] [] []).
  apply (@wne_pair (py "div") (1, 0) (1, 14)
           [check_tags.starttag (py "img") (1, 5);
            check_tags.startendtag (py "p") (1, 10)] []);
    [reflexivity | | constructor].
  apply wne_void; [reflexivity|]. apply wne_startend. constructor.
Defined.

(** X13: in the parser-driven checker one end tag that skips unclosed inner
    tags costs exactly one message and resynchronises the stack: after a
    start tag [a], start tags of other names that are never ended, and the
    end tag of [a], the stack is what it was before the start tag [a], and
    the only new error is the mismatch against the innermost open tag. *)
Theorem resynchronised_after_unclosed_inner
        (stack : list (str * check_tags.pos)) (errs : list str)
        (a b : str) (pa pb at_ : check_tags.pos)
        (inner : list (str * check_tags.pos)) :
  mem a check_tags.self_closing = false ->
  mem b check_tags.self_closing = false ->
  b <> a ->
  (forall e, In e inner ->
     mem (fst e) check_tags.self_closing = false /\ fst e <> a) ->
  check_tags.feed (check_tags.mk stack errs)
    (check_tags.starttag a pa
       :: map (fun e => check_tags.starttag (fst e) (snd e)) (inner ++ [(b, pb)])
       ++ [check_tags.endtag a at_])
  = check_tags.mk stack
      (errs ++ [check_tags.msg_mismatched b pb a at_]).
Proof.
  intros Ha Hb Hba Hin.
  change (check_tags.starttag a pa
            :: map (fun e => check_tags.starttag (fst e) (snd e)) (inner ++ [(b, pb)])
            ++ [check_tags.endtag a at_])
    with (map (fun e => check_tags.starttag (fst e) (snd e))
              ((a, pa) :: inner ++ [(b, pb)])
          ++ [check_tags.endtag a at_]).
  rewrite feed_app, feed_starts.
  - unfold check_tags.feed. cbn [fold_left check_tags.dispatch].
    replace (stack ++ (a, pa) :: inner ++ [(b, pb)])
      with ((stack ++ (a, pa) :: inner) ++ [(b, pb)])
      by (rewrite <- app_assoc; reflexivity).
    rewrite handle_endtag_mismatch by exact Hba.
    rewrite recover_found; [reflexivity|].
    intros x Hx. apply (Hin x Hx).
  - intros e [<-|He]; [exact Ha|].
    apply in_app_or in He as [He|[<-|[]]]; [apply (Hin e He) | exact Hb].
Qed.

Lemma resynchronised_after_unclosed_inner_witness :
  check_tags.feed (check_tags.mk [(py "body", (1, 0))] [])
    (check_tags.starttag (py "ul") (2, 0)
       :: map (fun e => check_tags.starttag (fst e) (snd e))
              ([(py "li", (3, 2))] ++ [(py "b", (3, 6))])
       ++ [check_tags.endtag (py "ul") (4, 0)])
  = check_tags.mk [(py "body", (1, 0))]
      ([] ++ [check_tags.msg_mismatched (py "b") (3, 6) (py "ul") (4, 0)]).
Proof.
  apply (resynchronised_after_unclosed_inner
           [(py "body", (1, 0))] [] (py "ul") (py "b") (2, 0) (3, 6) (4, 0)
           [(py "li", (3, 2))]); try reflexivity; try discriminate.
  intros e [<-|[]]. split; [reflexivity | discriminate].
Defined.

Section TagCheckerInvariants.
Import check_tags.

Lemma firstn_Forall (A : Type) (P : A -> Prop) (k : nat) (l : list A) :
  Forall P l -> Forall P (firstn k l).
Proof.
  intros H. rewrite <- (firstn_skipn k l) in H.
  apply Forall_app in H as [H _]. exact H.
Qed.

Lemma dispatch_keeps (P : str * pos -> Prop) (self : TagChecker) (e : event) :
  (forall tag at_, e = starttag tag at_ -> mem tag self_closing = false ->
                   P (tag, at_)) ->
  Forall P (tags self) -> Forall P (tags (dispatch self e)).
Proof.
  intros Hp H. destruct e as [tag at_|tag at_|tag at_]; cbn [dispatch].
  - unfold handle_starttag. destruct (mem tag self_closing) eqn:V;
      cbn [negb]; [exact H|]. cbn [tags].
    apply Forall_app. split; [exact H|].
    constructor; [apply Hp; auto | constructor].
  - exact H.
  - unfold handle_endtag.
    destruct (pop (tags self)) as [[rest [last_tag p]]|] eqn:Pp; [|exact H].
    apply pop_Some in Pp. rewrite Pp in H. apply Forall_app in H as [H _].
    destruct (negb (str_eqb last_tag tag)); cbn [tags]; [|exact H].
    destruct (recover_prefix (length rest) rest tag) as [k ->].
    apply firstn_Forall; exact H.
Qed.

Lemma dispatch_sizes (self : TagChecker) (e : event) :
  length (tags (dispatch self e)) + length (errors (dispatch self e))
  <= S (length (tags self) + length (errors self)).
Proof.
  destruct e as [tag at_|tag at_|tag at_]; cbn [dispatch].
  - unfold handle_starttag. destruct (negb (mem tag self_closing));
      cbn [tags errors]; rewrite ?length_app; cbn [length]; lia.
  - unfold handle_startendtag. lia.
  - unfold handle_endtag.
    destruct (pop (tags self)) as [[rest [last_tag p]]|] eqn:Pp.
    + apply pop_Some in Pp. rewrite Pp.
      destruct (negb (str_eqb last_tag tag)); cbn [tags errors].
      * destruct (recover_prefix (length rest) rest tag) as [k ->].
        rewrite !length_app, length_firstn. cbn [length]. lia.
      * rewrite length_app. cbn [length]. lia.
    + cbn [tags errors]. rewrite length_app. cbn [length]. lia.
Qed.
End TagCheckerInvariants.

(** X14: the parser-driven checker never holds a void element on its stack
    and reports at most one message per callback: whatever the callbacks,
    no entry left on the stack (and so no "Unclosed tag" line) names a
    member of the set, and the report is never longer than the list of
    callbacks. *)
Theorem tagchecker_invariants (evs : list check_tags.event) :
  Forall (fun e => mem (fst e) check_tags.self_closing = false)
         (check_tags.tags (check_tags.feed check_tags.init evs))
  /\ length (check_tags.report (check_tags.feed check_tags.init evs))
     <= length evs.
Proof.
  assert (G : forall evs self,
             Forall (fun e => mem (fst e) check_tags.self_closing = false)
                    (check_tags.tags self) ->
             Forall (fun e => mem (fst e) check_tags.self_closing = false)
                    (check_tags.tags (check_tags.feed self evs))
             /\ length (check_tags.tags (check_tags.feed self evs))
                + length (check_tags.errors (check_tags.feed self evs))
                <= length evs + (length (check_tags.tags self)
                                 + length (check_tags.errors self))).
  { clear evs. induction evs as [|e evs IH]; intros self H.
    - split; [exact H | cbn; lia].
    - unfold check_tags.feed in *. cbn [fold_left length].
      destruct (IH (check_tags.dispatch self e)) as [I1 I2].
      + apply dispatch_keeps; [|exact H]. intros tag at_ _ V. exact V.
      + split; [exact I1|].
        pose proof (dispatch_sizes self e). lia. }
  destruct (G evs check_tags.init (Forall_nil _)) as [G1 G2].
  split; [exact G1|].
  unfold check_tags.report. rewrite length_app, length_map.
  cbn [check_tags.init check_tags.tags check_tags.errors length] in G2. lia.
Qed.

(** ** The driver *)

Lemma dict_set_keys (d : list (str * list str)) (k : str) (v : list str) :
  NoDup (map fst d) -> NoDup (map fst (dict_set d k v)).
Proof.
  assert (K : forall d, forall x, In x (map fst (dict_set d k v)) ->
                                  x = k \/ In x (map fst d)).
  { clear d. induction d as [|[k' v'] d IH]; intros x; cbn [dict_set].
    - intros [<-|[]]. left; reflexivity.
    - destruct (str_eqb k' k) eqn:E; cbn [map fst In].
      + intros [<-|H]; [left; reflexivity | right; right; exact H].
      + intros [<-|H]; [right; left; reflexivity|].
        destruct (IH x H) as [->|H']; [left; reflexivity | right; right; exact H']. }
  induction d as [|[k' v'] d IH]; intros N; cbn [dict_set].
  - constructor; [intros [] | constructor].
  - cbn [map fst] in N. inversion N as [|? ? N1 N2]; subst.
    destruct (str_eqb k' k) eqn:E; cbn [map fst].
    + apply str_eqb_spec in E. subst k'. constructor; assumption.
    + constructor; [|apply IH; exact N2].
      intros H. destruct (K d k' H) as [->|H']; [|exact (N1 H')].
      rewrite str_eqb_refl in E. discriminate.
Qed.

Lemma dict_set_In (d : list (str * list str)) (k : str) (v : list str)
      (p : str) (e : list str) :
  NoDup (map fst d) ->
  In (p, e) (dict_set d k v)
  <-> (p = k /\ e = v) \/ (p <> k /\ In (p, e) d).
Proof.
  induction d as [|[k' v'] d IH]; intros N; cbn [dict_set].
  - cbn [In]. split.
    + intros [H|[]]. injection H as <- <-. left; split; reflexivity.
    + intros [[-> ->]|[_ []]]. left; reflexivity.
  - cbn [map fst] in N. inversion N as [|? ? N1 N2]; subst.
    destruct (str_eqb k' k) eqn:E; cbn [In].
    + apply str_eqb_spec in E. subst k'. split.
      * intros [H|H].
        -- injection H as <- <-. left; split; reflexivity.
        -- right. split; [|right; exact H].
           intros ->. apply N1. apply (in_map fst) in H. exact H.
      * intros [[-> ->]|[Hp [H|H]]].
        -- left; reflexivity.
        -- injection H as H1 H2. symmetry in H1. contradiction.
        -- right; exact H.
    + split.
      * intros [H|H].
        -- injection H as <- <-. right. split; [|left; reflexivity].
           intros ->. rewrite str_eqb_refl in E. discriminate.
        -- apply (IH N2) in H as [H|[H1 H2]]; [left; exact H|].
           right; split; [exact H1 | right; exact H2].
      * intros [H|[Hp [H|H]]].
        -- right. apply (IH N2). left; exact H.
        -- left; exact H.
        -- right. apply (IH N2). right; split; assumption.
Qed.

Lemma in_vue_paths (walk : list (str * list str)) (p : str) :
  In p (vue_paths walk)
  <-> exists root files file,
        In (root, files) walk /\ In file files
        /\ endswith (py ".vue") file = true /\ p = path_join root file.
Proof.
  unfold vue_paths. rewrite in_flat_map. split.
  - intros [[root files] [H1 H2]]. cbn [fst snd] in H2.
    apply in_map_iff in H2 as [file [<- H2]].
    apply filter_In in H2 as [H2 H3].
    exists root, files, file. auto.
  - intros [root [files [file [H1 [H2 [H3 ->]]]]]].
    exists (root, files). split; [exact H1|]. cbn [fst snd].
    apply in_map. apply filter_In. auto.
Qed.

Section DriverFacts.
Variable read : str -> option str.
Variable check : str -> list str.

Lemma visit_file_None (root file : str) :
  visit_file read check root None file = None.
Proof. reflexivity. Qed.

Lemma visit_files_None (root : str) (files : list str) :
  fold_left (visit_file read check root) files None = None.
Proof. induction files as [|f files IH]; [reflexivity | exact IH]. Qed.

Lemma visit_walk_None (walk : list (str * list str)) :
  fold_left (fun acc rf =>
               fold_left (visit_file read check (fst rf)) (snd rf) acc)
            walk None = None.
Proof.
  induction walk as [|rf walk IH]; [reflexivity|].
  cbn [fold_left]. rewrite visit_files_None. exact IH.
Qed.

Lemma visit_file_other (root file : str)
      (acc : option (list (str * list str))) :
  endswith (py ".vue") file = false ->
  visit_file read check root acc file = acc.
Proof.
  intros H. unfold visit_file. destruct acc; [|reflexivity].
  rewrite H. reflexivity.
Qed.

Lemma visit_file_unreadable (root file : str)
      (acc : option (list (str * list str))) :
  endswith (py ".vue") file = true ->
  read (path_join root file) = None ->
  visit_file read check root acc file = None.
Proof.
  intros H R. unfold visit_file. destruct acc; [|reflexivity].
  rewrite H. cbn zeta. rewrite R. reflexivity.
Qed.

(** One pass of the loop body keeps the listing exact. *)
Lemma visit_file_listing (root file : str) (visited : list str)
      (d d' : list (str * list str)) :
  listing_of read check visited d ->
  visit_file read check root (Some d) file = Some d' ->
  listing_of read check
    (visited ++ map (path_join root)
                    (filter (endswith (py ".vue")) [file])) d'.
Proof.
  intros [N I] V. unfold visit_file in V. cbn [filter].
  destruct (endswith (py ".vue") file) eqn:E.
  2:{ injection V as <-. cbn [map]. rewrite app_nil_r. split; assumption. }
  cbn zeta in V. cbn [map].
  destruct (read (path_join root file)) as [content|] eqn:R; [|discriminate].
  destruct (check content) as [|e0 es] eqn:C; injection V as <-.
  - split; [exact N|]. intros p errs. rewrite (I p errs). split.
    + intros [H1 [H2 H3]]. split; [exact H1|]. split; [|exact H3].
      apply in_or_app. left; exact H2.
    + intros [H1 [H2 H3]]. split; [exact H1|]. split; [|exact H3].
      apply in_app_or in H2 as [H2|[<-|[]]]; [exact H2|].
      rewrite R in H3. cbn [option_map] in H3. rewrite C in H3.
      injection H3 as <-. contradiction.
  - split; [apply dict_set_keys; exact N|]. intros p errs.
    rewrite (dict_set_In d (path_join root file) (e0 :: es) p errs N). split.
    + intros [[-> ->]|[H0 H]].
      * split; [discriminate|]. split.
        -- apply in_or_app. right; left; reflexivity.
        -- rewrite R. cbn [option_map]. rewrite C. reflexivity.
      * apply I in H as [H1 [H2 H3]]. split; [exact H1|]. split; [|exact H3].
        apply in_or_app. left; exact H2.
    + intros [H1 [H2 H3]].
      destruct (list_eq_dec N.eq_dec p (path_join root file)) as [->|D].
      * left. split; [reflexivity|].
        rewrite R in H3. cbn [option_map] in H3. rewrite C in H3.
        injection H3 as <-. reflexivity.
      * right. split; [exact D|]. apply I. split; [exact H1|].
        split; [|exact H3].
        apply in_app_or in H2 as [H2|[<-|[]]]; [exact H2|].
        contradiction D; reflexivity.
Qed.

Lemma visit_files_listing (root : str) (files : list str) :
  forall (visited : list str) (d d' : list (str * list str)),
    listing_of read check visited d ->
    fold_left (visit_file read check root) files (Some d) = Some d' ->
    listing_of read check
      (visited ++ map (path_join root)
                      (filter (endswith (py ".vue")) files)) d'.
Proof.
  induction files as [|f files IH]; intros visited d d' L F.
  - cbn in F. injection F as <-. cbn [filter map]. rewrite app_nil_r. exact L.
  - cbn [fold_left] in F.
    destruct (visit_file read check root (Some d) f) as [d1|] eqn:V.
    2:{ rewrite visit_files_None in F. discriminate. }
    pose proof (visit_file_listing root f visited d d1 L V) as L1.
    pose proof (IH _ d1 d' L1 F) as L2.
    change (f :: files) with ([f] ++ files).
    rewrite filter_app, map_app, app_assoc. exact L2.
Qed.

Lemma visit_walk_listing (walk : list (str * list str)) :
  forall (visited : list str) (d d' : list (str * list str)),
    listing_of read check visited d ->
    fold_left (fun acc rf =>
                 fold_left (visit_file read check (fst rf)) (snd rf) acc)
              walk (Some d) = Some d' ->
    listing_of read check (visited ++ vue_paths walk) d'.
Proof.
  induction walk as [|[root files] walk IH]; intros visited d d' L F.
  - cbn in F. injection F as <-. cbn [vue_paths flat_map].
    rewrite app_nil_r. exact L.
  - cbn [fold_left fst snd] in F.
    destruct (fold_left (visit_file read check root) files (Some d))
      as [d1|] eqn:V.
    2:{ rewrite visit_walk_None in F. discriminate. }
    pose proof (visit_files_listing root files visited d d1 L V) as L1.
    pose proof (IH _ d1 d' L1 F) as L2.
    unfold vue_paths in *. cbn [flat_map fst snd].
    rewrite app_assoc. exact L2.
Qed.

Lemma visit_all_listing (walk : list (str * list str))
      (d : list (str * list str)) :
  visit_all read check walk = Some d ->
  listing_of read check (vue_paths walk) d.
Proof.
  intros F. apply (visit_walk_listing walk [] [] d); [|exact F].
  split; [constructor|]. intros p errs. split; [intros []|].
  intros [_ [[] _]].
Qed.

Lemma listing_empty (visited : list str) (d : list (str * list str)) :
  listing_of read check visited d ->
  d = [] <-> forall p content, In p visited -> read p = Some content ->
                               check content = [].
Proof.
  intros [_ I]. split.
  - intros -> p content Hp R.
    destruct (check content) as [|e0 es] eqn:C; [reflexivity|].
    exfalso. apply (proj2 (I p (e0 :: es))).
    split; [discriminate|]. split; [exact Hp|].
    rewrite R. cbn [option_map]. rewrite C. reflexivity.
  - intros H. destruct d as [|[p errs] d]; [reflexivity|]. exfalso.
    destruct (proj1 (I p errs) (or_introl eq_refl)) as [H1 [H2 H3]].
    destruct (read p) as [content|] eqn:R; [|discriminate].
    cbn [option_map] in H3. injection H3 as H3.
    apply H1. rewrite <- H3. exact (H p content H2 R).
Qed.

Lemma printed_all_clear (all_clear : str) (d : list (str * list str)) :
  startswith (py "File: ") all_clear = false ->
  printed all_clear d = [all_clear] <-> d = [].
Proof.
  intros S. split; [|intros ->; reflexivity].
  destruct d as [|[p errs] d]; [reflexivity|].
  cbn [printed flat_map fst snd]. intros H. exfalso.
  injection H as H _.
  rewrite <- H in S. vm_compute in S. discriminate.
Qed.

Lemma run_all_clear (all_clear : str) (walk : list (str * list str))
      (lines : list str) :
  startswith (py "File: ") all_clear = false ->
  run read check all_clear walk = Some lines ->
  lines = [all_clear]
  <-> forall root files file content,
        In (root, files) walk -> In file files ->
        endswith (py ".vue") file = true ->
        read (path_join root file) = Some content ->
        check content = [].
Proof.
  intros S R. unfold run in R.
  destruct (visit_all read check walk) as [d|] eqn:V; [|discriminate].
  injection R as <-. rewrite (printed_all_clear all_clear d S).
  rewrite (listing_empty _ d (visit_all_listing walk d V)). split.
  - intros H root files file content H1 H2 H3 H4.
    apply (H (path_join root file) content); [|exact H4].
    apply in_vue_paths. exists root, files, file. auto.
  - intros H p content Hp Rp.
    apply in_vue_paths in Hp as [root [files [file [H1 [H2 [H3 ->]]]]]].
    exact (H root files file content H1 H2 H3 Rp).
Qed.
End DriverFacts.

(** X15: each script prints its all-clear line, and nothing else, exactly
    when no file of the walk whose name ends in .vue has a diagnostic; the
    all-clear line is never printed beside a report.  For all three
    scripts, each with its own checking function and its own line. *)
Theorem all_clear_iff_no_diagnostics
        (html : str -> list check_tags.event + str)
        (read : str -> option str) (walk : list (str * list str)) :
  (forall lines, run_v3 read walk = Some lines ->
     (lines = [py "No unclosed tags found."]
      <-> forall root files file content,
            In (root, files) walk -> In file files ->
            endswith (py ".vue") file = true ->
            read (path_join root file) = Some content ->
            check_tags_v3.check_file_tags content = []))
  /\ (forall lines, run_v2 read walk = Some lines ->
     (lines = [py "No unclosed tags found."]
      <-> forall root files file content,
            In (root, files) walk -> In file files ->
            endswith (py ".vue") file = true ->
            read (path_join root file) = Some content ->
            check_tags_v2.check_file_tags content = []))
  /\ (forall lines, run_v1 html read walk = Some lines ->
     (lines = [py "No unclosed tags found in .vue files."]
      <-> forall root files file content,
            In (root, files) walk -> In file files ->
            endswith (py ".vue") file = true ->
            read (path_join root file) = Some content ->
            check_tags.check_file html content = [])).
Proof.
  split; [|split]; intros lines R;
    apply (run_all_clear read _ _ walk lines); try exact R; reflexivity.
Qed.

Lemma all_clear_iff_no_diagnostics_witness :
  run_v3 (fun _ => Some (py "<template><div></div></template>"))
         [(py "app", [py "a.vue"; py "b.ts"])]
  = Some [py "No unclosed tags found."]
  /\ check_tags_v3.check_file_tags (py "<template><div></div></template>")
     = [].
Proof.
  split; [vm_compute; reflexivity|].
  apply (proj1 (proj1 (all_clear_iff_no_diagnostics
                         (fun _ => inl [])
                         (fun _ => Some (py "<template><div></div></template>"))
                         [(py "app", [py "a.vue"; py "b.ts"])])
                      [py "No unclosed tags found."]
                      ltac:(vm_compute; reflexivity))
               eq_refl
               (py "app") [py "a.vue"; py "b.ts"] (py "a.vue")
               (py "<template><div></div></template>")).
  - left; reflexivity.
  - left; reflexivity.
  - vm_compute; reflexivity.
  - reflexivity.
Defined.

(** X16: the loop lists exactly the .vue files that have diagnostics: when
    the walk ends without an exception, every path of the dict is the join
    of a root and one of its file names ending in .vue, its value is what
    the checking function returns for the text of that file and is not
    empty, every such file is in the dict, and no path is there twice
    (also when the walk yields a file more than once). *)
Theorem dict_lists_files_with_diagnostics
        (read : str -> option str) (check : str -> list str)
        (walk : list (str * list str)) (d : list (str * list str)) :
  visit_all read check walk = Some d ->
  NoDup (map fst d)
  /\ forall p errs,
       In (p, errs) d
       <-> errs <> []
           /\ (exists root files file,
                 In (root, files) walk /\ In file files
                 /\ endswith (py ".vue") file = true
                 /\ p = path_join root file)
           /\ option_map check (read p) = Some errs.
Proof.
  intros V. destruct (visit_all_listing read check walk d V) as [N I].
  split; [exact N|]. intros p errs. rewrite (I p errs), in_vue_paths.
  reflexivity.
Qed.

Lemma dict_lists_files_with_diagnostics_witness :
  NoDup (map fst [(py "app/a.vue", [msg_unclosed (py "div")])])
  /\ forall p errs,
       In (p, errs) [(py "app/a.vue", [msg_unclosed (py "div")])]
       <-> errs <> []
           /\ (exists root files file,
                 In (root, files)
                    [(py "app", [py "a.vue"; py "b.ts"; py "a.vue"])]
                 /\ In file files
                 /\ endswith (py ".vue") file = true
                 /\ p = path_join root file)
           /\ option_map check_tags_v3.check_file_tags
                ((fun _ => Some (py "<template><div></template>")) p)
              = Some errs.
Proof.
  apply (dict_lists_files_with_diagnostics
           (fun _ => Some (py "<template><div></template>"))
           check_tags_v3.check_file_tags
           [(py "app", [py "a.vue"; py "b.ts"; py "a.vue"])]
           [(py "app/a.vue", [msg_unclosed (py "div")])]).
  vm_compute. reflexivity.
Defined.

(** X17: files whose name does not end in .vue are never opened and change
    nothing: the script prints the same with those names removed from the
    walk, and with any other file system that agrees on the .vue files of
    the walk.  The test is on the exact suffix, so a name ending in .VUE or
    .vue.bak is not checked either. *)
Theorem other_files_ignored
        (read read' : str -> option str) (check : str -> list str)
        (all_clear : str) (walk : list (str * list str)) :
  (forall root files file,
     In (root, files) walk -> In file files ->
     endswith (py ".vue") file = true ->
     read (path_join root file) = read' (path_join root file)) ->
  run read check all_clear walk
  = run read' check all_clear
        (map (fun rf => (fst rf, filter (endswith (py ".vue")) (snd rf)))
             walk).
Proof.
  intros A. unfold run, visit_all.
  assert (F : forall root files acc,
             (forall file, In file files ->
                endswith (py ".vue") file = true ->
                read (path_join root file) = read' (path_join root file)) ->
             fold_left (visit_file read check root) files acc
             = fold_left (visit_file read' check root)
                         (filter (endswith (py ".vue")) files) acc).
  { intros root files. induction files as [|f files IH]; intros acc H;
      [reflexivity|].
    cbn [fold_left filter].
    destruct (endswith (py ".vue") f) eqn:E.
    - cbn [fold_left].
      replace (visit_file read' check root acc f)
        with (visit_file read check root acc f).
      + apply IH. intros; apply H; [right|]; assumption.
      + unfold visit_file. destruct acc; [|reflexivity].
        rewrite E. cbn zeta. rewrite (H f (or_introl eq_refl) E).
        reflexivity.
    - rewrite (visit_file_other read check root f acc E).
      apply IH. intros; apply H; [right|]; assumption. }
  assert (G : forall acc,
             fold_left (fun acc rf =>
                          fold_left (visit_file read check (fst rf)) (snd rf) acc)
                       walk acc
             = fold_left (fun acc rf =>
                            fold_left (visit_file read' check (fst rf)) (snd rf) acc)
                         (map (fun rf => (fst rf,
                                          filter (endswith (py ".vue")) (snd rf)))
                              walk) acc).
  { induction walk as [|[root files] walk IH]; intros acc; [reflexivity|].
    cbn [fold_left map fst snd].
    rewrite (F root files acc)
      by (intros file H1 H2; apply (A root files file);
          [left; reflexivity | exact H1 | exact H2]).
    apply IH. intros root' files' file H1 H2 H3.
    apply (A root' files' file); [right; exact H1 | exact H2 | exact H3]. }
  rewrite G. reflexivity.
Qed.

Lemma other_files_ignored_witness :
  run (fun p => if endswith (py ".vue") p
                then Some (py "<template><div></template>") else None)
      check_tags_v3.check_file_tags (py "No unclosed tags found.")
      [(py "app", [py "a.VUE"; py "a.vue"; py "a.vue.bak"])]
  = run (fun _ => Some (py "<template><div></template>"))
        check_tags_v3.check_file_tags (py "No unclosed tags found.")
        (map (fun rf => (fst rf, filter (endswith (py ".vue")) (snd rf)))
             [(py "app", [py "a.VUE"; py "a.vue"; py "a.vue.bak"])]).
Proof.
  apply (other_files_ignored
           (fun p => if endswith (py ".vue") p
                     then Some (py "<template><div></template>") else None)
           (fun _ => Some (py "<template><div></template>"))
           check_tags_v3.check_file_tags (py "No unclosed tags found.")
           [(py "app", [py "a.VUE"; py "a.vue"; py "a.vue.bak"])]).
  intros root files file [H|[]] Hf E. injection H as <- <-.
  destruct Hf as [<-|[<-|[<-|[]]]]; vm_compute in E; try discriminate.
  reflexivity.
Defined.

(** X18: a .vue file that cannot be read ends the script before anything is
    printed: the functions open the file outside any try, the loop catches
    nothing, and every print comes after the loop, so diagnostics already
    collected for other files are lost. *)
Theorem unreadable_file_prints_nothing
        (read : str -> option str) (check : str -> list str)
        (all_clear : str) (walk : list (str * list str))
        (root file : str) (files : list str) :
  In (root, files) walk -> In file files ->
  endswith (py ".vue") file = true ->
  read (path_join root file) = None ->
  run read check all_clear walk = None.
Proof.
  intros H1 H2 E R. unfold run, visit_all.
  apply in_split in H1 as [w1 [w2 ->]].
  apply in_split in H2 as [f1 [f2 ->]].
  rewrite fold_left_app. cbn [fold_left fst snd].
  rewrite fold_left_app. cbn [fold_left].
  rewrite (visit_file_unreadable read check root file _ E R).
  rewrite visit_files_None, visit_walk_None. reflexivity.
Qed.

Lemma unreadable_file_prints_nothing_witness :
  run (fun p => if str_eqb p (py "app/b.vue") then None
                else Some (py "<template><div></template>"))
      check_tags_v3.check_file_tags (py "No unclosed tags found.")
      [(py "app", [py "a.vue"; py "b.vue"])]
  = None.
Proof.
  apply (unreadable_file_prints_nothing
           (fun p => if str_eqb p (py "app/b.vue") then None
                     else Some (py "<template><div></template>"))
           check_tags_v3.check_file_tags (py "No unclosed tags found.")
           [(py "app", [py "a.vue"; py "b.vue"])]
           (py "app") (py "b.vue") [py "a.vue"; py "b.vue"]).
  - left; reflexivity.
  - right; left; reflexivity.
  - vm_compute; reflexivity.
  - vm_compute; reflexivity.
Defined.
